(** * tinycollectd test listener: [test-listener/tinyd_listen.py]

    A shallow embedding of the UDP listener and of the parts of the Python
    runtime it calls: [bytes.decode] (strict UTF-8), [json.loads],
    [json.dumps], the text file handle and [print].

    Python objects are modelled as follows.
    - [bytes] is [list byte]; [str] is a list of Unicode code points ([N]).
    - [int] is [Z]; [float] is the type [pyfloat], whose finite values are
      kept abstract (class [PyFloat]): [float()] and [float.__repr__] are
      primitives of the interpreter, and the two facts used about them are
      collected in [PyFloatLaws].
    - [list] is [list]; [dict] is an association list in insertion order
      with pairwise distinct keys.
    - exceptions are the constructors of [exn]; a computation of the
      listener is a function from the process state to a result and a new
      state.

    The json codec follows [Lib/json/decoder.py], [scanner.py] and
    [encoder.py] with the default options used by the listener; positions
    in the scanned string are replaced by the remaining suffix.  The loops
    of the scanner run on fuel: [decode] gives them enough of it
    ([decode_total]), so a rejected text is a text the scanner rejects.
    Resource limits of the interpreter (recursion depth, memory, the limit
    on the number of digits in an [int] literal) are outside the model. *)

From Stdlib Require Import List Bool NArith ZArith Lia.
From Stdlib Require Import Strings.String Strings.Ascii Strings.Byte.
Import ListNotations.

Set Implicit Arguments.
Local Open Scope N_scope.

(** ** Text *)

Definition pystr := list N.

(** The code points of an ASCII literal. *)
Definition lit (s : string) : pystr :=
  map N_of_ascii (list_ascii_of_string s).

(** [s.startswith(p)], returning what follows the prefix. *)
Fixpoint strip_prefix (p s : pystr) : option pystr :=
  match p, s with
  | [], _ => Some s
  | a :: p', b :: s' => if a =? b then strip_prefix p' s' else None
  | _ :: _, [] => None
  end.

Fixpoint str_eqb (a b : pystr) : bool :=
  match a, b with
  | [], [] => true
  | x :: a', y :: b' => (x =? y) && str_eqb a' b'
  | _, _ => false
  end.

(** [sep.join(chunks)] *)
Fixpoint join (sep : pystr) (chunks : list pystr) : pystr :=
  match chunks with
  | [] => []
  | [c] => c
  | c :: rest => c ++ sep ++ join sep rest
  end.

(** Surrogate code points. *)
Definition is_high (c : N) : bool := (0xd800 <=? c) && (c <=? 0xdbff).
Definition is_low (c : N) : bool := (0xdc00 <=? c) && (c <=? 0xdfff).

(** A Unicode scalar value: what a strict decoder can produce. *)
Definition is_scalar (c : N) : bool :=
  (c <? 0x110000) && negb ((0xd800 <=? c) && (c <=? 0xdfff)).

(** ** [bytes.decode()]: strict UTF-8 *)

Definition is_cont (b : N) : bool := (0x80 <=? b) && (b <=? 0xbf).

(** Range of the second byte after the lead byte [b0] (Unicode table 3-7). *)
Definition second_lo (b0 : N) : N :=
  if b0 =? 0xe0 then 0xa0 else if b0 =? 0xf0 then 0x90 else 0x80.
Definition second_hi (b0 : N) : N :=
  if b0 =? 0xed then 0x9f else if b0 =? 0xf4 then 0x8f else 0xbf.
Definition is_second (b0 b1 : N) : bool :=
  (second_lo b0 <=? b1) && (b1 <=? second_hi b0).

Fixpoint utf8_decode (bs : list byte) : option pystr :=
  match bs with
  | [] => Some []
  | x0 :: t0 =>
    let b0 := Byte.to_N x0 in
    if b0 <? 0x80 then option_map (cons b0) (utf8_decode t0)
    else if b0 <? 0xc2 then None
    else if b0 <? 0xe0 then
      match t0 with
      | x1 :: t1 =>
        let b1 := Byte.to_N x1 in
        if is_cont b1
        then option_map (cons ((b0 - 0xc0) * 64 + (b1 - 0x80))) (utf8_decode t1)
        else None
      | _ => None
      end
    else if b0 <? 0xf0 then
      match t0 with
      | x1 :: x2 :: t2 =>
        let b1 := Byte.to_N x1 in
        let b2 := Byte.to_N x2 in
        if is_second b0 b1 && is_cont b2
        then option_map
               (cons ((b0 - 0xe0) * 4096 + (b1 - 0x80) * 64 + (b2 - 0x80)))
               (utf8_decode t2)
        else None
      | _ => None
      end
    else if b0 <? 0xf5 then
      match t0 with
      | x1 :: x2 :: x3 :: t3 =>
        let b1 := Byte.to_N x1 in
        let b2 := Byte.to_N x2 in
        let b3 := Byte.to_N x3 in
        if is_second b0 b1 && is_cont b2 && is_cont b3
        then option_map
               (cons ((b0 - 0xf0) * 262144 + (b1 - 0x80) * 4096
                      + (b2 - 0x80) * 64 + (b3 - 0x80)))
               (utf8_decode t3)
        else None
      | _ => None
      end
    else None
  end.

(** ** [json.encoder]: strings *)

(** ['\\u{0:04x}'.format(n)], one digit at a time. *)
Definition hex_digit (d : N) : N := if d <? 10 then 48 + d else 87 + d.

Definition hex4 (n : N) : pystr :=
  [hex_digit (n / 4096); hex_digit ((n / 256) mod 16);
   hex_digit ((n / 16) mod 16); hex_digit (n mod 16)].

Definition u_escape (n : N) : pystr := 92 :: 117 :: hex4 n.

(** The replacement [replace(match)] of [py_encode_basestring_ascii]:
    [ESCAPE_ASCII] matches a backslash, a double quote and everything
    outside [' '..'~']; [ESCAPE_DCT] has the short escapes. *)
Definition escape_char (c : N) : pystr :=
  if c =? 92 then [92; 92]
  else if c =? 34 then [92; 34]
  else if c =? 8 then [92; 98]
  else if c =? 12 then [92; 102]
  else if c =? 10 then [92; 110]
  else if c =? 13 then [92; 114]
  else if c =? 9 then [92; 116]
  else if (32 <=? c) && (c <=? 126) then [c]
  else if c <? 0x10000 then u_escape c
  else
    let n := c - 0x10000 in
    let s1 := N.lor 0xd800 (N.land (N.shiftr n 10) 0x3ff) in
    let s2 := N.lor 0xdc00 (N.land n 0x3ff) in
    u_escape s1 ++ u_escape s2.

Definition encode_basestring_ascii (s : pystr) : pystr :=
  34 :: flat_map escape_char s ++ [34].

(** ** [json.decoder]: strings *)

Definition hex_value (c : N) : option N :=
  if (48 <=? c) && (c <=? 57) then Some (c - 48)
  else if (97 <=? c) && (c <=? 102) then Some (c - 87)
  else if (65 <=? c) && (c <=? 70) then Some (c - 55)
  else None.

(** [_decode_uXXXX]: exactly four hexadecimal digits, as the scanner of
    CPython's [_json] module reads them. *)
Definition decode_uXXXX (s : pystr) : option (N * pystr) :=
  match s with
  | h1 :: h2 :: h3 :: h4 :: r =>
    match hex_value h1, hex_value h2, hex_value h3, hex_value h4 with
    | Some a, Some b, Some c, Some d =>
      Some (a * 4096 + b * 256 + c * 16 + d, r)
    | _, _, _, _ => None
    end
  | _ => None
  end.

(** The table [BACKSLASH]. *)
Definition backslash (esc : N) : option N :=
  if esc =? 34 then Some 34
  else if esc =? 92 then Some 92
  else if esc =? 47 then Some 47
  else if esc =? 98 then Some 8
  else if esc =? 102 then Some 12
  else if esc =? 110 then Some 10
  else if esc =? 114 then Some 13
  else if esc =? 116 then Some 9
  else None.

(** One turn of the [while 1] loop of [scanstring] (with [strict=True]),
    with no character of plain content in front of the terminator. *)
Inductive chunk : Type :=
| CEnd (rest : pystr)
| CChar (c : N) (rest : pystr)
| CErr.

Definition next_chunk (s : pystr) : chunk :=
  match s with
  | [] => CErr
  | c :: t =>
    if c =? 34 then CEnd t
    else if c =? 92 then
      match t with
      | [] => CErr
      | esc :: t1 =>
        if esc =? 117 then
          match decode_uXXXX t1 with
          | None => CErr
          | Some (uni, t2) =>
            if is_high uni then
              match strip_prefix [92; 117] t2 with
              | Some t3 =>
                match decode_uXXXX t3 with
                | None => CErr
                | Some (uni2, t4) =>
                  if is_low uni2
                  then CChar (0x10000 + N.lor (N.shiftl (uni - 0xd800) 10)
                                              (uni2 - 0xdc00)) t4
                  else CChar uni t2
                end
              | None => CChar uni t2
              end
            else CChar uni t2
          end
        else
          match backslash esc with
          | Some ch => CChar ch t1
          | None => CErr
          end
      end
    else if c <? 32 then CErr
    else CChar c t
  end.

Fixpoint scanstring_loop (fuel : nat) (s : pystr) : option (pystr * pystr) :=
  match fuel with
  | O => None
  | S fuel' =>
    match next_chunk s with
    | CEnd r => Some ([], r)
    | CChar c r =>
      match scanstring_loop fuel' r with
      | Some (x, r') => Some (c :: x, r')
      | None => None
      end
    | CErr => None
    end
  end.

(** [scanstring(s, end)]: [s] is what follows the opening quote; every
    turn consumes a character, so the loop runs at most [length s] times
    before it meets the end of the text. *)
Definition scanstring (s : pystr) : option (pystr * pystr) :=
  scanstring_loop (S (List.length s)) s.



(** ** Numbers *)

Definition is_digit (c : N) : bool := (48 <=? c) && (c <=? 57).

(** The longest run of digits and what follows it. *)
Fixpoint span_digits (s : pystr) : pystr * pystr :=
  match s with
  | c :: t =>
    if is_digit c
    then let (ds, r) := span_digits t in (c :: ds, r)
    else ([], s)
  | [] => ([], [])
  end.

(** The three groups of [NUMBER_RE]: an integer part (an optional minus
    sign, then a single zero or a digit other than zero followed by any
    digits), an optional fraction (a dot and at least one digit) and an
    optional exponent (e or E, an optional sign and at least one digit). *)
Definition match_unsigned (s : pystr) : option (pystr * pystr) :=
  match s with
  | d :: t =>
    if d =? 48 then Some ([48], t)
    else if is_digit d
         then let (ds, r) := span_digits t in Some (d :: ds, r)
         else None
  | [] => None
  end.

Definition match_integer (s : pystr) : option (pystr * pystr) :=
  match strip_prefix [45] s with
  | Some t =>
    match match_unsigned t with
    | Some (ds, r) => Some (45 :: ds, r)
    | None => None
    end
  | None => match_unsigned s
  end.

Definition match_frac (s : pystr) : pystr * pystr :=
  match strip_prefix [46] s with
  | Some t =>
    match span_digits t with
    | ([], _) => ([], s)
    | (ds, r) => (46 :: ds, r)
    end
  | None => ([], s)
  end.

Definition match_exp (s : pystr) : pystr * pystr :=
  match s with
  | e :: t =>
    if (e =? 101) || (e =? 69) then
      let (sg, t1) :=
        match t with
        | c :: t' => if (c =? 45) || (c =? 43) then ([c], t') else ([], t)
        | [] => ([], t)
        end in
      match span_digits t1 with
      | ([], _) => ([], s)
      | (ds, r) => (e :: sg ++ ds, r)
      end
    else ([], s)
  | [] => ([], s)
  end.

(** [match_number]: the matched text, whether [frac or exp] holds, and the
    remaining input. *)
Definition match_number (s : pystr) : option (pystr * bool * pystr) :=
  match match_integer s with
  | None => None
  | Some (integer, r0) =>
    let (frac, r1) := match_frac r0 in
    let (exp, r2) := match_exp r1 in
    Some (integer ++ frac ++ exp,
          negb (match frac ++ exp with [] => true | _ => false end), r2)
  end.

(** [int(literal)] on a text matched by the first group. *)
Definition digits_value (ds : pystr) : N :=
  fold_left (fun a c => a * 10 + (c - 48)) ds 0.

Definition int_of_literal (l : pystr) : Z :=
  match l with
  | 45 :: ds => (- Z.of_N (digits_value ds))%Z
  | _ => Z.of_N (digits_value l)
  end.

(** [int.__repr__] *)
Fixpoint digits_loop (fuel : nat) (n : N) (acc : pystr) : pystr :=
  match fuel with
  | O => acc
  | S fuel' =>
    let acc' := (48 + n mod 10) :: acc in
    if n / 10 =? 0 then acc' else digits_loop fuel' (n / 10) acc'
  end.

Definition digits (n : N) : pystr :=
  digits_loop (S (N.to_nat (N.log2 n))) n [].

Definition int_repr (z : Z) : pystr :=
  match z with
  | Zneg p => 45 :: digits (Npos p)
  | _ => digits (Z.to_N z)
  end.

(** ** Floats *)

Inductive pyfloat (F : Type) : Type :=
| FNaN
| FInf
| FNegInf
| FFinite (x : F).
Arguments FNaN {F}.
Arguments FInf {F}.
Arguments FNegInf {F}.

(** The interpreter's binary64 arithmetic: the finite floats, [float(text)]
    on a text matched by [NUMBER_RE] and [float.__repr__]. *)
Class PyFloat : Type := {
  finite : Type;
  float_of_literal : pystr -> pyfloat finite;
  float_repr : finite -> pystr
}.

(** Does [NUMBER_RE] match the whole of [l] with a fraction or an exponent? *)
Definition is_float_literal (l : pystr) : bool :=
  match match_number l with
  | Some (_, true, []) => true
  | _ => false
  end.

(** [repr] of a finite float is a JSON number with a fraction or an
    exponent, and reading it back gives the same float. *)
Class PyFloatLaws (PF : PyFloat) : Prop := {
  float_repr_literal : forall x, is_float_literal (float_repr x) = true;
  float_repr_inverse : forall x, float_of_literal (float_repr x) = FFinite x
}.



(** ** Exceptions *)

Inductive exn : Type :=
| JSONDecodeError
| UnicodeDecodeError
| OSError
| ValueError.

Definition exn_eqb (a b : exn) : bool :=
  match a, b with
  | JSONDecodeError, JSONDecodeError
  | UnicodeDecodeError, UnicodeDecodeError
  | OSError, OSError
  | ValueError, ValueError => true
  | _, _ => false
  end.

Inductive result (A : Type) : Type :=
| Ret (a : A)
| Raise (e : exn).
Arguments Raise {A} e.

(** [data.decode()] *)
Definition bytes_decode (data : list byte) : result pystr :=
  match utf8_decode data with
  | Some s => Ret s
  | None => Raise UnicodeDecodeError
  end.

(** Outcome of a scan that is driven by fuel: a value, a
    [JSONDecodeError], or fuel exhausted. *)
Inductive scan (A : Type) : Type :=
| Ok (a : A)
| Bad
| Fuel.
Arguments Bad {A}.
Arguments Fuel {A}.

Definition is_ws (c : N) : bool :=
  (c =? 32) || (c =? 9) || (c =? 10) || (c =? 13).

(** [WHITESPACE.match(s, end).end()] *)
Fixpoint skip_ws (s : pystr) : pystr :=
  match s with
  | c :: t => if is_ws c then skip_ws t else s
  | [] => []
  end.

Section Codec.

Context {PF : PyFloat}.

(** ** Records: what [json.loads] returns *)

Unset Elimination Schemes.
Inductive value : Type :=
| JNull
| JBool (b : bool)
| JInt (z : Z)
| JFloat (f : pyfloat finite)
| JStr (s : pystr)
| JArr (l : list value)
| JObj (d : list (pystr * value)).
Set Elimination Schemes.

(** [d[k] = v] on a dict kept in insertion order. *)
Fixpoint dict_set (d : list (pystr * value)) (k : pystr) (v : value)
  : list (pystr * value) :=
  match d with
  | [] => [(k, v)]
  | (k', v') :: d' =>
    if str_eqb k k' then (k', v) :: d' else (k', v') :: dict_set d' k v
  end.

(** [dict(pairs)] *)
Definition dict (pairs : list (pystr * value)) : list (pystr * value) :=
  fold_left (fun d kv => dict_set d (fst kv) (snd kv)) pairs [].

(** ** [json.dumps(obj)] with the default options

    [ensure_ascii=True], [allow_nan=True], no indentation, separators
    [', '] and [': '], keys in the order of the dict. *)

Definition floatstr (o : pyfloat finite) : pystr :=
  match o with
  | FNaN => lit "NaN"
  | FInf => lit "Infinity"
  | FNegInf => lit "-Infinity"
  | FFinite x => float_repr x
  end.

Fixpoint json_dumps (o : value) : pystr :=
  match o with
  | JStr s => encode_basestring_ascii s
  | JNull => lit "null"
  | JBool true => lit "true"
  | JBool false => lit "false"
  | JInt z => int_repr z
  | JFloat f => floatstr f
  | JArr l => 91 :: join (lit ", ") (map json_dumps l) ++ [93]
  | JObj d =>
    123 :: join (lit ", ")
             (map (fun kv => encode_basestring_ascii (fst kv)
                             ++ lit ": " ++ json_dumps (snd kv)) d)
        ++ [125]
  end.

(** ** [json.loads(s)] with the default options *)

(** The prologue of [JSONArray]: the look-ahead for an empty array. *)
Definition JSONArray (loop : pystr -> scan (list value * pystr)) (s : pystr)
  : scan (list value * pystr) :=
  match strip_prefix [93] (skip_ws s) with
  | Some r => Ok ([], r)
  | None => loop (skip_ws s)
  end.

(** The prologue of [JSONObject]: an empty object, or the opening quote
    of the first key. *)
Definition JSONObject (loop : pystr -> scan (list (pystr * value) * pystr))
  (s : pystr) : scan (list (pystr * value) * pystr) :=
  match strip_prefix [125] (skip_ws s) with
  | Some r => Ok ([], r)
  | None =>
    match strip_prefix [34] (skip_ws s) with
    | Some r => loop r
    | None => Bad
    end
  end.

(** The constants of the scanner that are not numbers. *)
Definition scan_constant (s : pystr) : scan (value * pystr) :=
  match strip_prefix (lit "NaN") s with
  | Some r => Ok (JFloat FNaN, r)
  | None =>
    match strip_prefix (lit "Infinity") s with
    | Some r => Ok (JFloat FInf, r)
    | None =>
      match strip_prefix (lit "-Infinity") s with
      | Some r => Ok (JFloat FNegInf, r)
      | None => Bad
      end
    end
  end.

Definition scan_atom (s : pystr) : scan (value * pystr) :=
  match strip_prefix (lit "null") s with
  | Some r => Ok (JNull, r)
  | None =>
    match strip_prefix (lit "true") s with
    | Some r => Ok (JBool true, r)
    | None =>
      match strip_prefix (lit "false") s with
      | Some r => Ok (JBool false, r)
      | None =>
        match match_number s with
        | Some (text, true, r) => Ok (JFloat (float_of_literal text), r)
        | Some (text, false, r) => Ok (JInt (int_of_literal text), r)
        | None => scan_constant s
        end
      end
    end
  end.

(** [_scan_once] with the loops of [JSONArray] and [JSONObject]. *)
Fixpoint scan_once (fuel : nat) (s : pystr) {struct fuel}
  : scan (value * pystr) :=
  match fuel with
  | O => Fuel
  | S fuel' =>
    match s with
    | [] => Bad
    | c :: t =>
      if c =? 34 then
        match scanstring t with
        | Some (x, r) => Ok (JStr x, r)
        | None => Bad
        end
      else if c =? 123 then
        match JSONObject (object_loop fuel') t with
        | Ok (pairs, r) => Ok (JObj (dict pairs), r)
        | Bad => Bad
        | Fuel => Fuel
        end
      else if c =? 91 then
        match JSONArray (array_loop fuel') t with
        | Ok (values, r) => Ok (JArr values, r)
        | Bad => Bad
        | Fuel => Fuel
        end
      else scan_atom s
    end
  end

with array_loop (fuel : nat) (s : pystr) {struct fuel}
  : scan (list value * pystr) :=
  match fuel with
  | O => Fuel
  | S fuel' =>
    match scan_once fuel' s with
    | Ok (v, r) =>
      match strip_prefix [93] (skip_ws r) with
      | Some r1 => Ok ([v], r1)
      | None =>
        match strip_prefix [44] (skip_ws r) with
        | Some r1 =>
          match array_loop fuel' (skip_ws r1) with
          | Ok (vs, r2) => Ok (v :: vs, r2)
          | Bad => Bad
          | Fuel => Fuel
          end
        | None => Bad
        end
      end
    | Bad => Bad
    | Fuel => Fuel
    end
  end

with object_loop (fuel : nat) (s : pystr) {struct fuel}
  : scan (list (pystr * value) * pystr) :=
  match fuel with
  | O => Fuel
  | S fuel' =>
    match scanstring s with
    | None => Bad
    | Some (key, r) =>
      match strip_prefix [58] (skip_ws r) with
      | Some r1 =>
        match scan_once fuel' (skip_ws r1) with
        | Ok (v, r2) =>
          match strip_prefix [125] (skip_ws r2) with
          | Some r3 => Ok ([(key, v)], r3)
          | None =>
            match strip_prefix [44] (skip_ws r2) with
            | Some r3 =>
              match strip_prefix [34] (skip_ws r3) with
              | Some r4 =>
                match object_loop fuel' r4 with
                | Ok (pairs, r5) => Ok ((key, v) :: pairs, r5)
                | Bad => Bad
                | Fuel => Fuel
                end
              | None => Bad
              end
            | None => Bad
            end
          end
        | Bad => Bad
        | Fuel => Fuel
        end
      | None => Bad
      end
    end
  end.

(** Fuel for a text: each call of the scanner either consumes a character
    or is followed by a call that does. *)
Definition fuel_for (s : pystr) : nat := 2 * List.length s + 2.

(** [JSONDecoder.decode]: a value between optional whitespace, and
    nothing else. *)
Definition decode (s : pystr) : scan value :=
  match scan_once (fuel_for s) (skip_ws s) with
  | Ok (obj, r) =>
    match skip_ws r with
    | [] => Ok obj
    | _ :: _ => Bad
    end
  | Bad => Bad
  | Fuel => Fuel
  end.

Definition json_loads (s : pystr) : result value :=
  match strip_prefix [0xfeff] s with
  | Some _ => Raise JSONDecodeError
  | None =>
    match decode s with
    | Ok obj => Ret obj
    | _ => Raise JSONDecodeError
    end
  end.

End Codec.

(** ** The listener *)

Definition HOST : string := "0.0.0.0".
Definition PORT : Z := 1555.
Definition OUTPUT_FILE : string := "metrics.out".

Definition address : Type := (string * Z)%type.

(** A datagram as the transport delivers it. *)
Record datagram : Type := {
  payload : list byte;
  sender : address
}.

(** The UDP socket [s]. *)
Record socket : Type := {
  bound : option address;
  sock_closed : bool
}.

(** The text file [f]: [stored] is what a reader of the file sees,
    [buffered] what has been written and not flushed, [room] the number of
    characters the device still takes. *)
Record file : Type := {
  name : string;
  mode : string;
  stored : pystr;
  buffered : pystr;
  room : N;
  closed : bool
}.

(** The lines of [print]. *)
Inductive message : Type :=
| Listening (host : string) (port : Z) (out : string)
| ReceivedAndWrote (addr : address)
| InvalidJSON (addr : address).

Record process : Type := {
  s : socket;
  f : file;
  stdout : list message
}.

(** A statement of the listener: it runs in a process state and returns
    or raises. *)
Definition M (A : Type) : Type := process -> result A * process.

Definition ret {A} (a : A) : M A := fun st => (Ret a, st).

Definition bind {A B} (m : M A) (k : A -> M B) : M B :=
  fun st =>
    match m st with
    | (Ret a, st') => k a st'
    | (Raise e, st') => (Raise e, st')
    end.

Definition lift {A} (r : result A) : M A := fun st => (r, st).

(** [try: body except cls: handler] *)
Definition try_except {A} (body : M A) (cls : exn) (handler : M A) : M A :=
  fun st =>
    match body st with
    | (Ret a, st') => (Ret a, st')
    | (Raise e, st') => if exn_eqb e cls then handler st' else (Raise e, st')
    end.

Declare Scope listener_scope.
Delimit Scope listener_scope with listener.
Notation "x <- m ;; k" := (bind m (fun x => k))
  (at level 61, m at next level, right associativity) : listener_scope.
Notation "m ;; k" := (bind m (fun _ => k))
  (at level 61, right associativity) : listener_scope.

Definition set_f (g : file) (st : process) : process :=
  {| s := s st; f := g; stdout := stdout st |}.

Definition print (m : message) : M unit :=
  fun st => (Ret tt, {| s := s st; f := f st; stdout := stdout st ++ [m] |}).

(** [s.bind(addr)] *)
Definition s_bind (addr : address) : M unit :=
  fun st =>
    (Ret tt, {| s := {| bound := Some addr; sock_closed := sock_closed (s st) |};
                f := f st; stdout := stdout st |}).

(** [s.recvfrom(bufsize)] on the next datagram of the transport: what
    does not fit in the buffer is discarded. *)
Definition recvfrom (bufsize : N) (d : datagram) : list byte * address :=
  (firstn (N.to_nat bufsize) (payload d), sender d).

(** [f.write(text)] *)
Definition f_write (text : pystr) : M unit :=
  fun st =>
    let g := f st in
    if closed g then (Raise ValueError, st)
    else (Ret tt,
          set_f {| name := name g; mode := mode g; stored := stored g;
                   buffered := buffered g ++ text; room := room g;
                   closed := false |} st).

(** [f.flush()] *)
Definition f_flush : M unit :=
  fun st =>
    let g := f st in
    if closed g then (Raise ValueError, st)
    else
      let n := N.of_nat (List.length (buffered g)) in
      if n <=? room g
      then (Ret tt,
            set_f {| name := name g; mode := mode g;
                     stored := stored g ++ buffered g; buffered := [];
                     room := room g - n; closed := false |} st)
      else (Raise OSError, st).

Section Listener.

Context {PF : PyFloat}.
Local Open Scope listener_scope.

(** [json.loads(data.decode())] *)
Definition validate (data : list byte) : result value :=
  match bytes_decode data with
  | Ret text => json_loads text
  | Raise e => Raise e
  end.

(** The [try] statement of the loop, on the bytes and the address that
    [recvfrom] returned. *)
Definition handle (data : list byte) (addr : address) : M unit :=
  try_except
    (obj <- lift (validate data) ;;
     let json_line := json_dumps obj in
     f_write (json_line ++ [10]) ;;
     f_flush ;;
     print (ReceivedAndWrote addr))
    JSONDecodeError
    (print (InvalidJSON addr)).

(** The body of [while True]. *)
Definition iteration (d : datagram) : M unit :=
  let (data, addr) := recvfrom 65535 d in handle data addr.

(** [while True] over the datagrams that arrive; when there is none left
    the loop is blocked in [recvfrom] and the result is [Ret tt]. An
    exception that leaves an iteration leaves the loop. *)
Fixpoint serve (arrivals : list datagram) : M unit :=
  match arrivals with
  | [] => ret tt
  | d :: rest => iteration d ;; serve rest
  end.

(** What the listener finds when it starts: the files of the working
    directory and the room left on the device. *)
Record environment : Type := {
  files : string -> option pystr;
  free : N
}.

(** [open(path, 'a')] *)
Definition open_append (env : environment) (path : string) : file :=
  {| name := path; mode := "a";
     stored := match files env path with Some c => c | None => [] end;
     buffered := []; room := free env; closed := false |}.

(** The exit of the [with] statement when an exception passes through it. *)
Definition with_exit (st : process) : process :=
  {| s := {| bound := bound (s st); sock_closed := true |};
     f := {| name := name (f st); mode := mode (f st);
             stored := stored (f st); buffered := buffered (f st);
             room := room (f st); closed := true |};
     stdout := stdout st |}.

Definition listen_udp_and_write (env : environment) (arrivals : list datagram)
  : result unit * process :=
  let st0 := {| s := {| bound := None; sock_closed := false |};
                f := open_append env OUTPUT_FILE;
                stdout := [] |} in
  match (s_bind (HOST, PORT) ;;
         print (Listening HOST PORT OUTPUT_FILE) ;;
         serve arrivals) st0 with
  | (Ret tt, st) => (Ret tt, st)
  | (Raise e, st) => (Raise e, with_exit st)
  end.

End Listener.

(** ** An instance of the float interface

    Floats with an integral value: [repr] prints the integer and [.0], and
    reading a literal keeps its integer part. *)
Definition integral_of_literal (text : pystr) : pyfloat Z :=
  match match_integer text with
  | Some (i, _) => FFinite (int_of_literal i)
  | None => FNaN
  end.

Definition IntegralFloat : PyFloat := {|
  finite := Z;
  float_of_literal := integral_of_literal;
  float_repr := fun z => int_repr z ++ lit ".0"
|}.

(** * Vocabulary of the statements *)

Unset Implicit Arguments.

(** The text [r] does not start with the escape of a low surrogate. *)
Definition no_low_escape (r : pystr) : bool :=
  match strip_prefix [92; 117] r with
  | None => true
  | Some t =>
    match decode_uXXXX t with
    | Some (u, _) => negb (is_low u)
    | None => false
    end
  end.

(** The strings [json.loads] returns for a decoded payload: code points
    in range, and no high surrogate directly before a low one (the
    scanner joins such a pair of escapes into one code point). *)
Fixpoint str_ok (x : pystr) : bool :=
  match x with
  | [] => true
  | c :: t =>
    (c <? 0x110000)
    && negb (is_high c && match t with d :: _ => is_low d | [] => false end)
    && str_ok t
  end.

Definition scalars (s : pystr) : Prop := Forall (fun c => is_scalar c = true) s.

(** A suffix reached after at least one character. *)
Definition later (s r : pystr) : Prop := exists p, p <> [] /\ s = p ++ r.

(** The characters of a JSON number. *)
Definition number_char (c : N) : bool :=
  is_digit c || (c =? 45) || (c =? 43) || (c =? 46) || (c =? 101) || (c =? 69).

(** The text [rest] cannot continue a number. *)
Definition stops (rest : pystr) : bool :=
  match rest with
  | [] => true
  | c :: _ => negb (number_char c)
  end.

(** The text [rest] does not start with a digit. *)
Definition no_digit (rest : pystr) : bool :=
  match rest with
  | [] => true
  | c :: _ => negb (is_digit c)
  end.

Definition number_text (t : pystr) : Prop :=
  Forall (fun c => number_char c = true) t.

Definition suffix (s r : pystr) : Prop := exists p, s = p ++ r.

(** Pairwise distinct keys. *)
Fixpoint distinct (ks : list pystr) : bool :=
  match ks with
  | [] => true
  | k :: t => negb (existsb (str_eqb k) t) && distinct t
  end.

(** The first character of an encoded record. *)
Definition value_start (c : N) : bool :=
  negb (is_ws c) && negb (c =? 93) && negb (c =? 125) && (c <? 128).

Definition printable (c : N) : bool := (32 <=? c) && (c <=? 126).

Definition printable_text (t : pystr) : Prop :=
  Forall (fun c => printable c = true) t.

(** [print] seen as a change of the process state. *)
Definition notify (m : message) (st : process) : process :=
  {| s := s st; f := f st; stdout := stdout st ++ [m] |}.

(** The file after [text] went through [write] and [flush]. *)
Definition flushed (text : pystr) (g : file) : file :=
  {| name := name g; mode := mode g;
     stored := stored g ++ buffered g ++ text; buffered := [];
     room := room g - N.of_nat (List.length (buffered g ++ text));
     closed := false |}.

(** The file after [write] when [flush] fails. *)
Definition unflushed (text : pystr) (g : file) : file :=
  {| name := name g; mode := mode g; stored := stored g;
     buffered := buffered g ++ text; room := room g; closed := false |}.

(** Does the device take the buffer and [text]? *)
Definition fits (text : pystr) (g : file) : bool :=
  N.of_nat (List.length (buffered g ++ text)) <=? room g.


(** What no statement of the loop touches. *)
Definition same_handles (st st' : process) : Prop :=
  s st' = s st /\ name (f st') = name (f st) /\ mode (f st') = mode (f st)
  /\ exists out, stdout st' = stdout st ++ out.

Section Vocabulary.

Context {PF : PyFloat}.

(** The records [json.loads] returns for a decoded payload. *)
Fixpoint record_ok (v : value) : bool :=
  match v with
  | JStr x => str_ok x
  | JArr l => forallb record_ok l
  | JObj d =>
    forallb (fun kv => str_ok (fst kv) && record_ok (snd kv)) d
    && distinct (map fst d)
  | _ => true
  end.

Definition pair_ok (kv : pystr * value) : bool :=
  str_ok (fst kv) && record_ok (snd kv).

(** Scanning the text of [v] gives [v] back, whatever follows it (unless
    it continues a number), with fuel for twice the length of the text. *)
Definition scans_back (v : value) : Prop :=
  record_ok v = true ->
  forall rest fuel,
    stops rest = true ->
    le (2 * List.length (json_dumps v)) fuel ->
    scan_once fuel (json_dumps v ++ rest) = Ok (v, rest).

(** The text of a dict member, as [json_dumps] writes it. *)
Definition member (kv : pystr * value) : pystr :=
  encode_basestring_ascii (fst kv) ++ lit ": " ++ json_dumps (snd kv).

Definition scan_once_ok (fuel : nat) : Prop :=
  forall s v r,
    scan_once fuel s = Ok (v, r) ->
    later s r /\ (scalars s -> record_ok v = true).

Definition array_loop_ok (fuel : nat) : Prop :=
  forall s vs r,
    array_loop fuel s = Ok (vs, r) ->
    later s r /\ (scalars s -> forallb record_ok vs = true).

Definition object_loop_ok (fuel : nat) : Prop :=
  forall s ps r,
    object_loop fuel s = Ok (ps, r) ->
    later s r /\ (scalars s -> forallb pair_ok ps = true).


(** The line the loop prints for a datagram it got through. *)
Definition report (d : datagram) : message :=
  match validate (fst (recvfrom 65535 d)) with
  | Ret _ => ReceivedAndWrote (snd (recvfrom 65535 d))
  | Raise _ => InvalidJSON (snd (recvfrom 65535 d))
  end.

End Vocabulary.

(** ** Test data *)

(** A text written with apostrophes where the payload has double quotes. *)
Definition quoted (text : string) : pystr :=
  map (fun c => if c =? 39 then 34 else c) (lit text).

Definition to_bytes (text : pystr) : list byte :=
  map (fun c => match Byte.of_N c with Some b => b | None => x00 end) text.

Definition from (text : pystr) : datagram :=
  {| payload := to_bytes text; sender := ("192.0.2.7"%string, 40000%Z) |}.

Definition no_files : environment :=
  {| files := fun _ => None; free := 1000 |}.

(** The listener right after its start in an empty directory. *)
Definition started : process :=
  {| s := {| bound := Some (HOST, PORT); sock_closed := false |};
     f := open_append no_files OUTPUT_FILE;
     stdout := [Listening HOST PORT OUTPUT_FILE] |}.

Definition integral (z : Z) : @finite IntegralFloat := z.

Definition reading : @value IntegralFloat :=
  JObj [(lit "temp", JFloat (FFinite (integral 42)));
        (lit "tags", JArr [JStr [97; 233]; JNull; JBool true; JInt (-7)])].

Definition reading_text : pystr :=
  quoted "{ 'temp' : 42.0, 'tags':['a\u00e9',null ,true, -7] }".


Definition three_datagrams : list datagram :=
  [from reading_text; from (lit "not json"); from (lit "[1, 2]")].

(** A datagram whose payload is not UTF-8. *)
Definition garbled : datagram :=
  {| payload := [x7b; xc3; x28; x7d];
     sender := ("192.0.2.9"%string, 40001%Z) |}.

(** A working directory where the sink already has a line. *)
Definition with_history : environment :=
  {| files := fun path => if String.eqb path OUTPUT_FILE
                          then Some (lit "0" ++ [10]) else None;
     free := 1000 |}.

Definition with_garbled : list datagram :=
  [from reading_text; garbled; from (lit "[1, 2]")].

(** A datagram whose payload starts with the byte order mark. *)
Definition marked : datagram :=
  {| payload := xef :: xbb :: xbf :: to_bytes (lit "[1]");
     sender := ("192.0.2.9"%string, 40001%Z) |}.

Definition awkward : @value IntegralFloat :=
  JObj [([10; 34], JStr [13; 10; 233; 128512; 0x2028])].

(** * Properties *)

Ltac nlia := zify; Z.to_euclidean_division_equations; lia.

Ltac bools :=
  repeat rewrite ?andb_true_iff, ?orb_true_iff, ?andb_false_iff,
    ?orb_false_iff, ?negb_true_iff, ?negb_false_iff, ?N.eqb_eq, ?N.eqb_neq,
    ?N.leb_le, ?N.leb_gt, ?N.ltb_lt, ?N.ltb_ge.

Ltac bools_in H :=
  repeat rewrite ?andb_true_iff, ?orb_true_iff, ?andb_false_iff,
    ?orb_false_iff, ?negb_true_iff, ?negb_false_iff, ?N.eqb_eq, ?N.eqb_neq,
    ?N.leb_le, ?N.leb_gt, ?N.ltb_lt, ?N.ltb_ge in H.

(** Settle the test of the first conditional of the goal by arithmetic. *)
Ltac decide_if :=
  match goal with
  | |- context [if ?b then _ else _] =>
    first
      [ let H := fresh in
        assert (H : b = true) by (bools; lia); rewrite H; clear H
      | let H := fresh in
        assert (H : b = false) by (bools; lia); rewrite H; clear H ]
  end.

(** ** Bit operations of the surrogate pairs *)

Lemma lor_shiftl_low (a b k : N) :
  b < 2 ^ k -> N.lor (N.shiftl a k) b = a * 2 ^ k + b.
Proof.
  intros Hb.
  assert (H0 : N.land (N.shiftl a k) b = 0).
  { apply N.bits_inj. intros i. rewrite N.land_spec, N.bits_0.
    destruct (N.lt_ge_cases i k) as [Hi|Hi].
    - rewrite N.shiftl_spec_low by assumption. reflexivity.
    - assert (Hbi : N.testbit b i = false).
      { destruct (N.eq_dec b 0) as [->|Hnz]; [apply N.bits_0|].
        apply N.bits_above_log2. apply N.log2_lt_pow2; [lia|].
        eapply N.lt_le_trans; [exact Hb|]. apply N.pow_le_mono_r; lia. }
      rewrite Hbi. apply andb_false_r. }
  rewrite <- N.lxor_lor by assumption.
  rewrite <- N.add_nocarry_lxor by assumption.
  rewrite N.shiftl_mul_pow2. reflexivity.
Qed.

Lemma high_surrogate_eq (n : N) :
  N.lor 0xd800 (N.land (N.shiftr n 10) 0x3ff) = 0xd800 + (n / 1024) mod 1024.
Proof.
  change 0x3ff with (N.ones 10). rewrite N.land_ones, N.shiftr_div_pow2.
  change 0xd800 with (N.shiftl 54 10).
  rewrite lor_shiftl_low by (apply N.mod_lt; discriminate).
  reflexivity.
Qed.

Lemma low_surrogate_eq (n : N) :
  N.lor 0xdc00 (N.land n 0x3ff) = 0xdc00 + n mod 1024.
Proof.
  change 0x3ff with (N.ones 10). rewrite N.land_ones.
  change 0xdc00 with (N.shiftl 55 10).
  rewrite lor_shiftl_low by (apply N.mod_lt; discriminate).
  reflexivity.
Qed.

Lemma combine_surrogates_eq (a b : N) :
  b < 1024 -> N.lor (N.shiftl a 10) b = a * 1024 + b.
Proof. intros H. rewrite lor_shiftl_low by exact H. reflexivity. Qed.

(** ** Hexadecimal escapes *)

Lemma hex_value_digit (d : N) : d < 16 -> hex_value (hex_digit d) = Some d.
Proof.
  intros H. unfold hex_value, hex_digit.
  destruct (N.ltb_spec d 10).
  - decide_if. f_equal. lia.
  - decide_if. decide_if. f_equal. lia.
Qed.

Lemma hex_value_bound (c a : N) : hex_value c = Some a -> a < 16.
Proof.
  unfold hex_value.
  destruct ((48 <=? c) && (c <=? 57)) eqn:E1;
    [|destruct ((97 <=? c) && (c <=? 102)) eqn:E2;
      [|destruct ((65 <=? c) && (c <=? 70)) eqn:E3]];
    intros H; inversion H; subst; clear H.
  - bools_in E1. lia.
  - bools_in E2. lia.
  - bools_in E3. lia.
Qed.

Lemma decode_hex4 (n : N) (r : pystr) :
  n < 65536 -> decode_uXXXX (hex4 n ++ r) = Some (n, r).
Proof.
  intros H. unfold hex4. cbn [app decode_uXXXX].
  rewrite !hex_value_digit by nlia.
  do 2 f_equal. nlia.
Qed.

Lemma decode_uXXXX_inv (s r : pystr) (u : N) :
  decode_uXXXX s = Some (u, r) ->
  u < 65536 /\ exists h1 h2 h3 h4, s = h1 :: h2 :: h3 :: h4 :: r.
Proof.
  unfold decode_uXXXX.
  destruct s as [|h1 [|h2 [|h3 [|h4 t]]]]; try discriminate.
  destruct (hex_value h1) as [a|] eqn:E1; try discriminate.
  destruct (hex_value h2) as [b|] eqn:E2; try discriminate.
  destruct (hex_value h3) as [c|] eqn:E3; try discriminate.
  destruct (hex_value h4) as [d|] eqn:E4; try discriminate.
  intros H. inversion H; subst; clear H.
  apply hex_value_bound in E1, E2, E3, E4.
  split; [lia|]. exists h1, h2, h3, h4. reflexivity.
Qed.

(** ** Strings: decoding an encoded string *)

Lemma surrogate_pair (c : N) :
  0x10000 <= c -> c < 0x110000 ->
  let n := c - 0x10000 in
  let s1 := N.lor 0xd800 (N.land (N.shiftr n 10) 0x3ff) in
  let s2 := N.lor 0xdc00 (N.land n 0x3ff) in
  s1 < 65536 /\ s2 < 65536 /\ is_high s1 = true /\ is_low s2 = true
  /\ 0x10000 + N.lor (N.shiftl (s1 - 0xd800) 10) (s2 - 0xdc00) = c.
Proof.
  intros Hlo Hhi n s1 s2. subst s1 s2.
  rewrite high_surrogate_eq, low_surrogate_eq.
  assert (Hn : n < 1048576) by (subst n; lia).
  assert (Hc : c = n + 0x10000) by (subst n; lia).
  clearbody n. subst c.
  assert (Ha : (n / 1024) mod 1024 < 1024) by (apply N.mod_lt; discriminate).
  assert (Hb : n mod 1024 < 1024) by (apply N.mod_lt; discriminate).
  rewrite (N.add_comm 0xd800), (N.add_comm 0xdc00), !N.add_sub.
  rewrite combine_surrogates_eq by exact Hb.
  unfold is_high, is_low.
  assert (Hq : n / 1024 < 1024) by nlia.
  rewrite (N.mod_small (n / 1024)) in * by exact Hq.
  repeat split; bools; nlia.
Qed.

Lemma next_chunk_escape (c : N) (r : pystr) :
  c < 0x110000 ->
  (is_high c = true -> no_low_escape r = true) ->
  next_chunk (escape_char c ++ r) = CChar c r.
Proof.
  intros Hc Hr. unfold escape_char.
  destruct (N.eqb_spec c 92); [subst; reflexivity|].
  destruct (N.eqb_spec c 34); [subst; reflexivity|].
  destruct (N.eqb_spec c 8); [subst; reflexivity|].
  destruct (N.eqb_spec c 12); [subst; reflexivity|].
  destruct (N.eqb_spec c 10); [subst; reflexivity|].
  destruct (N.eqb_spec c 13); [subst; reflexivity|].
  destruct (N.eqb_spec c 9); [subst; reflexivity|].
  destruct ((32 <=? c) && (c <=? 126)) eqn:Eplain.
  - bools_in Eplain. cbn [app next_chunk]. repeat decide_if. reflexivity.
  - destruct (N.ltb_spec c 0x10000) as [Hbmp|Hastral].
    + unfold u_escape. cbn [app next_chunk N.eqb Pos.eqb].
      rewrite decode_hex4 by exact Hbmp.
      destruct (is_high c) eqn:Ehigh; [|reflexivity].
      specialize (Hr eq_refl). unfold no_low_escape in Hr.
      destruct (strip_prefix [92; 117] r) as [t3|]; [|reflexivity].
      destruct (decode_uXXXX t3) as [[uni2 t4]|]; [|discriminate].
      apply negb_true_iff in Hr. rewrite Hr. reflexivity.
    + destruct (surrogate_pair c Hastral Hc) as (H1 & H2 & Hh & Hl & Heq).
      cbv zeta. rewrite <- app_assoc.
      unfold u_escape at 1. cbn [app next_chunk N.eqb Pos.eqb].
      rewrite decode_hex4 by exact H1. rewrite Hh.
      unfold u_escape. cbn [app strip_prefix N.eqb Pos.eqb].
      rewrite decode_hex4 by exact H2. rewrite Hl, Heq. reflexivity.
Qed.

Lemma escape_char_nonempty (c : N) : escape_char c <> [].
Proof.
  unfold escape_char, u_escape.
  repeat match goal with
         | |- context [if ?b then _ else _] => destruct b
         end; discriminate.
Qed.

Lemma no_low_escape_encoded (x tail : pystr) :
  match x with c :: _ => is_low c = false | [] => True end ->
  no_low_escape (flat_map escape_char x ++ 34 :: tail) = true.
Proof.
  destruct x as [|c x]; [reflexivity|]. intros Hc.
  cbn [flat_map]. rewrite <- app_assoc.
  generalize (flat_map escape_char x ++ 34 :: tail). intros r.
  unfold escape_char.
  destruct (N.eqb_spec c 92); [reflexivity|].
  destruct (N.eqb_spec c 34); [reflexivity|].
  destruct (N.eqb_spec c 8); [reflexivity|].
  destruct (N.eqb_spec c 12); [reflexivity|].
  destruct (N.eqb_spec c 10); [reflexivity|].
  destruct (N.eqb_spec c 13); [reflexivity|].
  destruct (N.eqb_spec c 9); [reflexivity|].
  destruct ((32 <=? c) && (c <=? 126)) eqn:Eplain.
  - bools_in Eplain. unfold no_low_escape. cbn [app strip_prefix].
    decide_if. reflexivity.
  - destruct (N.ltb_spec c 0x10000) as [Hbmp|Hastral].
    + unfold no_low_escape, u_escape. cbn [app strip_prefix N.eqb Pos.eqb].
      rewrite decode_hex4 by exact Hbmp. rewrite Hc. reflexivity.
    + cbv zeta. rewrite high_surrogate_eq, <- app_assoc.
      generalize (c - 0x10000). intros m.
      assert (Ha : (m / 1024) mod 1024 < 1024)
        by (apply N.mod_lt; discriminate).
      unfold no_low_escape, u_escape at 1.
      cbn [app strip_prefix N.eqb Pos.eqb].
      rewrite decode_hex4 by (clear - Ha; lia).
      unfold is_low. apply negb_true_iff. bools. clear - Ha. lia.
Qed.

Lemma str_ok_tail (c : N) (x : pystr) : str_ok (c :: x) = true -> str_ok x = true.
Proof. cbn [str_ok]. intros H. apply andb_true_iff in H. apply H. Qed.

Lemma scanstring_loop_encoded (x tail : pystr) :
  str_ok x = true ->
  forall fuel,
    lt (List.length (flat_map escape_char x ++ 34 :: tail)) fuel ->
    scanstring_loop fuel (flat_map escape_char x ++ 34 :: tail)
    = Some (x, tail).
Proof.
  induction x as [|c x IH]; intros Hok fuel Hfuel.
  - destruct fuel; [inversion Hfuel|]. reflexivity.
  - destruct fuel; [inversion Hfuel|].
    cbn [flat_map] in *. rewrite <- app_assoc in *.
    cbn [scanstring_loop].
    assert (Hok' := str_ok_tail _ _ Hok).
    cbn [str_ok] in Hok. apply andb_true_iff in Hok. destruct Hok as [Hok _].
    apply andb_true_iff in Hok. destruct Hok as [Hc Hpair].
    apply N.ltb_lt in Hc. apply negb_true_iff in Hpair.
    rewrite next_chunk_escape; [| exact Hc |].
    + rewrite IH; [reflexivity | exact Hok' |].
      rewrite length_app in Hfuel.
      pose proof (escape_char_nonempty c) as Hne.
      destruct (escape_char c); [contradiction|]. cbn [List.length] in Hfuel.
      lia.
    + intros Hhigh. apply no_low_escape_encoded.
      rewrite Hhigh in Hpair. destruct x; [exact I|exact Hpair].
Qed.

Lemma scanstring_encoded (x tail : pystr) :
  str_ok x = true ->
  scanstring (flat_map escape_char x ++ 34 :: tail) = Some (x, tail).
Proof.
  intros Hok. unfold scanstring. apply scanstring_loop_encoded; [exact Hok|].
  lia.
Qed.

(** ** Strings: what the scanner returns on a decoded payload *)

Lemma scalars_app_r (p r : pystr) : scalars (p ++ r) -> scalars r.
Proof. unfold scalars. rewrite Forall_app. intros [_ H]. exact H. Qed.

Lemma strip_prefix_inv (p s r : pystr) :
  strip_prefix p s = Some r -> s = p ++ r.
Proof.
  revert s. induction p as [|a p IH]; intros s H.
  - cbn in H. inversion H. reflexivity.
  - destruct s as [|b s]; [discriminate|]. cbn [strip_prefix] in H.
    destruct (N.eqb_spec a b); [|discriminate]. subst.
    cbn [app]. f_equal. apply IH. exact H.
Qed.

Lemma strip_prefix_app (p r : pystr) : strip_prefix p (p ++ r) = Some r.
Proof.
  induction p as [|a p IH]; [reflexivity|].
  cbn [app strip_prefix]. rewrite N.eqb_refl. exact IH.
Qed.

Lemma backslash_plain (esc ch : N) :
  backslash esc = Some ch -> ch < 128.
Proof.
  unfold backslash.
  repeat match goal with
         | |- context [if ?b then _ else _] => destruct b
         end; intros H; inversion H; reflexivity.
Qed.

Lemma later_length (s r : pystr) : later s r -> lt (List.length r) (List.length s).
Proof.
  intros (p & Hp & ->). rewrite length_app.
  destruct p; [contradiction|]. cbn [List.length]. lia.
Qed.

Lemma later_scalars (s r : pystr) : later s r -> scalars s -> scalars r.
Proof. intros (p & _ & ->). apply scalars_app_r. Qed.

Lemma later_cons (a : N) (s r : pystr) : later s r -> later (a :: s) r.
Proof.
  intros (p & Hp & ->). exists (a :: p). split; [discriminate|reflexivity].
Qed.

Lemma later_here (a : N) (r : pystr) : later (a :: r) r.
Proof. exists [a]. split; [discriminate|reflexivity]. Qed.

Lemma later_trans (s r t : pystr) : later s r -> later r t -> later s t.
Proof.
  intros (p & Hp & ->) (q & Hq & ->). exists (p ++ q). split.
  - destruct p; [contradiction|discriminate].
  - rewrite app_assoc. reflexivity.
Qed.

Lemma CChar_inj (c c' : N) (r r' : pystr) :
  CChar c r = CChar c' r' -> c = c' /\ r = r'.
Proof. intros H. inversion H. split; reflexivity. Qed.

Lemma next_chunk_char (s r : pystr) (c : N) :
  next_chunk s = CChar c r -> scalars s ->
  c < 0x110000
  /\ (is_high c = true -> no_low_escape r = true)
  /\ (is_low c = true -> no_low_escape s = false)
  /\ later s r.
Proof.
  unfold next_chunk. intros H Hs.
  destruct s as [|a t]; [discriminate|].
  destruct (N.eqb_spec a 34); [discriminate|].
  destruct (N.eqb_spec a 92) as [->|Hbs].
  - destruct t as [|esc t1]; [discriminate|].
    destruct (N.eqb_spec esc 117) as [->|Hu].
    + destruct (decode_uXXXX t1) as [[uni t2]|] eqn:Ed; [|discriminate].
      destruct (decode_uXXXX_inv _ _ _ Ed) as (Huni & h1 & h2 & h3 & h4 & ->).
      assert (Hlater : later (92 :: 117 :: h1 :: h2 :: h3 :: h4 :: t2) t2).
      { exists [92; 117; h1; h2; h3; h4]. split; [discriminate|reflexivity]. }
      assert (Hlow : is_low uni = true ->
                     no_low_escape (92 :: 117 :: h1 :: h2 :: h3 :: h4 :: t2)
                     = false).
      { intros Hl. unfold no_low_escape. cbn [strip_prefix N.eqb Pos.eqb].
        rewrite Ed, Hl. reflexivity. }
      destruct (is_high uni) eqn:Ehigh.
      * destruct (strip_prefix [92; 117] t2) as [t3|] eqn:Ep.
        -- destruct (decode_uXXXX t3) as [[uni2 t4]|] eqn:Ed2; [|discriminate].
           destruct (is_low uni2) eqn:Elow;
             apply CChar_inj in H; destruct H as [<- <-].
           ++ destruct (decode_uXXXX_inv _ _ _ Ed2) as (_ & g1 & g2 & g3 & g4 & ->).
              unfold is_high, is_low in *. bools_in Ehigh. bools_in Elow.
              assert (Hb : uni2 - 0xdc00 < 1024) by lia.
              rewrite combine_surrogates_eq by exact Hb.
              apply strip_prefix_inv in Ep. subst t2.
              remember (0x10000 + ((uni - 0xd800) * 1024 + (uni2 - 0xdc00)))
                as c eqn:Ec.
              clear Hlow.
              assert (Hc1 : 0x10000 <= c) by lia.
              assert (Hc2 : c < 0x110000) by lia.
              split; [exact Hc2|]. split; [bools; lia|]. split; [bools; lia|].
              eapply later_trans; [exact Hlater|].
              exists [92; 117; g1; g2; g3; g4].
              split; [discriminate|reflexivity].
           ++ split; [lia|]. split.
              ** intros _. unfold no_low_escape. rewrite Ep, Ed2, Elow.
                 reflexivity.
              ** split; [exact Hlow|exact Hlater].
        -- inversion H; subst; clear H.
           split; [lia|]. split.
           ++ intros _. unfold no_low_escape. rewrite Ep. reflexivity.
           ++ split; [exact Hlow|exact Hlater].
      * inversion H; subst; clear H.
        split; [lia|]. split; [intros Hh; rewrite Hh in Ehigh; discriminate|].
        split; [exact Hlow|exact Hlater].
    + destruct (backslash esc) as [ch|] eqn:Eb; [|discriminate].
      inversion H; subst; clear H. apply backslash_plain in Eb.
      unfold is_high, is_low. split; [lia|].
      split; [bools; lia|]. split; [bools; lia|].
      apply later_cons, later_here.
  - destruct (N.ltb_spec a 32); [discriminate|].
    inversion H; subst; clear H.
    inversion Hs as [|? ? Ha _]; subst.
    unfold is_scalar, is_high, is_low in *. bools_in Ha.
    split; [lia|]. split; [bools; lia|]. split; [bools; lia|].
    apply later_here.
Qed.

Lemma next_chunk_end (s r : pystr) : next_chunk s = CEnd r -> s = 34 :: r.
Proof.
  unfold next_chunk. intros H.
  destruct s as [|a t]; [discriminate|].
  destruct (N.eqb_spec a 34); [inversion H; subst; reflexivity|].
  repeat match type of H with
         | context [match ?x with _ => _ end] => destruct x; try discriminate
         end.
Qed.

Lemma scanstring_loop_ok (fuel : nat) :
  forall s x r,
    scanstring_loop fuel s = Some (x, r) -> scalars s ->
    str_ok x = true
    /\ match x with
       | c :: _ => is_low c = true -> no_low_escape s = false
       | [] => True
       end
    /\ later s r.
Proof.
  induction fuel as [|fuel IH]; intros s x r H Hs; [discriminate|].
  cbn [scanstring_loop] in H.
  destruct (next_chunk s) as [r0|c r0|] eqn:En; [| |discriminate].
  - inversion H; subst; clear H. apply next_chunk_end in En. subst.
    repeat split. apply later_here.
  - destruct (scanstring_loop fuel r0) as [[x' r']|] eqn:El; [|discriminate].
    inversion H; subst; clear H.
    destruct (next_chunk_char _ _ _ En Hs) as (Hc & Hhigh & Hlow & Hlater).
    destruct (IH _ _ _ El (later_scalars _ _ Hlater Hs)) as (Hok & Hhead & Hl').
    split; [|split; [exact Hlow|eapply later_trans; eassumption]].
    cbn [str_ok]. rewrite Hok, andb_true_r.
    apply andb_true_iff. split; [apply N.ltb_lt; exact Hc|].
    apply negb_true_iff.
    destruct (is_high c) eqn:Eh; [|reflexivity].
    destruct x' as [|d x']; [reflexivity|].
    destruct (is_low d) eqn:Ed; [|reflexivity].
    rewrite (Hhigh eq_refl) in Hhead. specialize (Hhead eq_refl). discriminate.
Qed.

Lemma scanstring_ok (s x r : pystr) :
  scanstring s = Some (x, r) -> scalars s -> str_ok x = true /\ later s r.
Proof.
  unfold scanstring. intros H Hs.
  destruct (scanstring_loop_ok _ _ _ _ H Hs) as (Hok & _ & Hl). split; assumption.
Qed.

(** ** Numbers *)

Lemma stops_digit (c : N) (t : pystr) : stops (c :: t) = true -> is_digit c = false.
Proof.
  unfold stops, number_char. intros H. apply negb_true_iff in H.
  destruct (is_digit c); [discriminate|reflexivity].
Qed.

Lemma stops_prefix (k c : N) (t : pystr) :
  stops (c :: t) = true -> number_char k = true ->
  strip_prefix [k] (c :: t) = None.
Proof.
  unfold stops. intros H Hk. apply negb_true_iff in H.
  cbn [strip_prefix]. destruct (N.eqb_spec k c); [|reflexivity].
  subst. rewrite H in Hk. discriminate.
Qed.

Lemma stops_no_digit (rest : pystr) : stops rest = true -> no_digit rest = true.
Proof.
  destruct rest as [|c t]; [reflexivity|]. intros H. cbn [no_digit].
  rewrite (stops_digit _ _ H). reflexivity.
Qed.

Lemma span_digits_more (s rest : pystr) :
  no_digit rest = true ->
  span_digits (s ++ rest)
  = (fst (span_digits s), snd (span_digits s) ++ rest).
Proof.
  intros Hr. induction s as [|c t IH].
  - cbn [app span_digits fst snd]. destruct rest as [|c t]; [reflexivity|].
    cbn [span_digits]. cbn [no_digit] in Hr. apply negb_true_iff in Hr.
    rewrite Hr. reflexivity.
  - cbn [app span_digits]. destruct (is_digit c); [|reflexivity].
    rewrite IH. destruct (span_digits t). reflexivity.
Qed.

Lemma span_digits_ext (s rest : pystr) :
  stops rest = true ->
  span_digits (s ++ rest)
  = (fst (span_digits s), snd (span_digits s) ++ rest).
Proof. intros H. apply span_digits_more, stops_no_digit, H. Qed.

Lemma span_digits_inv (s : pystr) :
  s = fst (span_digits s) ++ snd (span_digits s)
  /\ Forall (fun c => is_digit c = true) (fst (span_digits s)).
Proof.
  induction s as [|c t [IH1 IH2]]; [split; [reflexivity|constructor]|].
  cbn [span_digits]. destruct (is_digit c) eqn:Ec.
  - destruct (span_digits t) as [ds r]. cbn [fst snd app] in *.
    split; [f_equal; exact IH1|constructor; assumption].
  - split; [reflexivity|constructor].
Qed.

Lemma span_digits_all (ds : pystr) :
  Forall (fun c => is_digit c = true) ds -> span_digits ds = (ds, []).
Proof.
  induction 1 as [|c t Hc _ IH]; [reflexivity|].
  cbn [span_digits]. rewrite Hc, IH. reflexivity.
Qed.

Lemma match_unsigned_more (s rest ds r : pystr) :
  no_digit rest = true -> match_unsigned s = Some (ds, r) ->
  match_unsigned (s ++ rest) = Some (ds, r ++ rest).
Proof.
  intros Hr. unfold match_unsigned. destruct s as [|d t]; [discriminate|].
  cbn [app]. destruct (d =? 48).
  - intros H. inversion H. reflexivity.
  - destruct (is_digit d); [|discriminate].
    rewrite (span_digits_more t rest Hr). destruct (span_digits t).
    intros H. inversion H. reflexivity.
Qed.

Lemma strip_prefix_ext (k : N) (s rest t : pystr) :
  strip_prefix [k] s = Some t -> strip_prefix [k] (s ++ rest) = Some (t ++ rest).
Proof.
  destruct s as [|c s]; [discriminate|]. cbn [strip_prefix app].
  destruct (k =? c); [|discriminate]. intros H. inversion H. reflexivity.
Qed.

Lemma strip_prefix_ext_none (k : N) (s rest : pystr) :
  stops rest = true -> number_char k = true ->
  strip_prefix [k] s = None -> strip_prefix [k] (s ++ rest) = None.
Proof.
  intros Hr Hk. destruct s as [|c s].
  - intros _. cbn [app]. destruct rest; [reflexivity|].
    apply stops_prefix; assumption.
  - cbn [strip_prefix app]. destruct (k =? c); [discriminate|reflexivity].
Qed.

Lemma match_integer_more (s rest ds r : pystr) :
  no_digit rest = true -> match_integer s = Some (ds, r) ->
  match_integer (s ++ rest) = Some (ds, r ++ rest).
Proof.
  intros Hr. unfold match_integer.
  destruct (strip_prefix [45] s) as [t|] eqn:Ep.
  - rewrite (strip_prefix_ext _ _ rest _ Ep).
    destruct (match_unsigned t) as [[ds' r']|] eqn:Eu; [|discriminate].
    rewrite (match_unsigned_more _ _ _ _ Hr Eu).
    intros H. inversion H. reflexivity.
  - intros Eu.
    assert (Hp : strip_prefix [45] (s ++ rest) = None).
    { destruct s as [|c s']; [discriminate|]. cbn [app strip_prefix] in *.
      destruct (45 =? c); [discriminate|reflexivity]. }
    rewrite Hp. apply match_unsigned_more; assumption.
Qed.

Lemma match_integer_ext (s rest ds r : pystr) :
  stops rest = true -> match_integer s = Some (ds, r) ->
  match_integer (s ++ rest) = Some (ds, r ++ rest).
Proof. intros H. apply match_integer_more, stops_no_digit, H. Qed.

Lemma match_frac_ext (s rest : pystr) :
  stops rest = true ->
  match_frac (s ++ rest) = (fst (match_frac s), snd (match_frac s) ++ rest).
Proof.
  intros Hr. unfold match_frac.
  destruct (strip_prefix [46] s) as [t|] eqn:Ep.
  - rewrite (strip_prefix_ext _ _ rest _ Ep).
    rewrite (span_digits_ext t rest Hr).
    destruct (span_digits t) as [[|d ds] r]; reflexivity.
  - rewrite (strip_prefix_ext_none 46 _ _ Hr eq_refl Ep). reflexivity.
Qed.

Lemma match_exp_ext (s rest : pystr) :
  stops rest = true ->
  match_exp (s ++ rest) = (fst (match_exp s), snd (match_exp s) ++ rest).
Proof.
  intros Hr. unfold match_exp. destruct s as [|e t].
  - cbn [app fst snd]. destruct rest as [|c rest]; [reflexivity|].
    unfold stops, number_char in Hr. apply negb_true_iff in Hr.
    destruct ((c =? 101) || (c =? 69)) eqn:Ee; [|reflexivity].
    exfalso. bools_in Hr. bools_in Ee. lia.
  - cbn [app]. destruct ((e =? 101) || (e =? 69)); [|reflexivity].
    destruct t as [|c t'].
    + cbn [app span_digits fst snd].
      destruct rest as [|c rest]; [reflexivity|].
      assert (Hs : (c =? 45) || (c =? 43) = false).
      { unfold stops, number_char in Hr. apply negb_true_iff in Hr.
        bools_in Hr. bools. lia. }
      rewrite Hs. cbn [span_digits]. rewrite (stops_digit _ _ Hr). reflexivity.
    + cbn [app]. destruct ((c =? 45) || (c =? 43)).
      * rewrite (span_digits_ext t' rest Hr).
        destruct (span_digits t') as [[|d ds] r]; reflexivity.
      * change (c :: t' ++ rest) with ((c :: t') ++ rest).
        rewrite (span_digits_ext (c :: t') rest Hr).
        destruct (span_digits (c :: t')) as [[|d ds] r]; reflexivity.
Qed.

Lemma match_number_ext (s rest text r : pystr) (b : bool) :
  stops rest = true -> match_number s = Some (text, b, r) ->
  match_number (s ++ rest) = Some (text, b, r ++ rest).
Proof.
  intros Hr. unfold match_number.
  destruct (match_integer s) as [[i r0]|] eqn:Ei; [|discriminate].
  rewrite (match_integer_ext _ _ _ _ Hr Ei).
  rewrite (match_frac_ext r0 rest Hr).
  destruct (match_frac r0) as [fr r1]. cbn [fst snd].
  rewrite (match_exp_ext r1 rest Hr).
  destruct (match_exp r1) as [ex r2]. cbn [fst snd].
  intros H. inversion H. reflexivity.
Qed.

Lemma digit_number_char (c : N) : is_digit c = true -> number_char c = true.
Proof. unfold number_char. intros ->. reflexivity. Qed.

Lemma digits_number_text (ds : pystr) :
  Forall (fun c => is_digit c = true) ds -> number_text ds.
Proof. apply Forall_impl. exact digit_number_char. Qed.

Lemma match_unsigned_inv (s ds r : pystr) :
  match_unsigned s = Some (ds, r) ->
  s = ds ++ r /\ ds <> [] /\ Forall (fun c => is_digit c = true) ds.
Proof.
  unfold match_unsigned. destruct s as [|d t]; [discriminate|].
  destruct (N.eqb_spec d 48) as [->|Hd].
  - intros H. inversion H; subst. repeat split; [discriminate|].
    constructor; [reflexivity|constructor].
  - destruct (is_digit d) eqn:Ed; [|discriminate].
    destruct (span_digits_inv t) as [Ht Hds].
    destruct (span_digits t) as [ds' r']. cbn [fst snd] in *.
    intros H. inversion H; subst. repeat split.
    + discriminate.
    + constructor; assumption.
Qed.

Lemma match_integer_inv (s i r : pystr) :
  match_integer s = Some (i, r) -> s = i ++ r /\ i <> [] /\ number_text i.
Proof.
  unfold match_integer. destruct (strip_prefix [45] s) as [t|] eqn:Ep.
  - apply strip_prefix_inv in Ep. subst s.
    destruct (match_unsigned t) as [[ds r']|] eqn:Eu; [|discriminate].
    destruct (match_unsigned_inv _ _ _ Eu) as (-> & _ & Hds).
    intros H. inversion H; subst. repeat split; [discriminate|].
    constructor; [reflexivity|apply digits_number_text; exact Hds].
  - intros Eu. destruct (match_unsigned_inv _ _ _ Eu) as (-> & Hne & Hds).
    repeat split; [exact Hne|apply digits_number_text; exact Hds].
Qed.

Lemma match_frac_inv (s : pystr) :
  s = fst (match_frac s) ++ snd (match_frac s)
  /\ number_text (fst (match_frac s)).
Proof.
  unfold match_frac. destruct (strip_prefix [46] s) as [t|] eqn:Ep.
  - apply strip_prefix_inv in Ep. subst s.
    destruct (span_digits_inv t) as [Ht Hds].
    destruct (span_digits t) as [[|d ds] r]; cbn [fst snd] in *.
    + split; [reflexivity|constructor].
    + split; [cbn [app]; f_equal; exact Ht|].
      constructor; [reflexivity|apply digits_number_text; exact Hds].
  - split; [reflexivity|constructor].
Qed.

Lemma match_exp_inv (s : pystr) :
  s = fst (match_exp s) ++ snd (match_exp s)
  /\ number_text (fst (match_exp s)).
Proof.
  unfold match_exp. destruct s as [|e t]; [split; [reflexivity|constructor]|].
  destruct ((e =? 101) || (e =? 69)) eqn:Ee;
    [|split; [reflexivity|constructor]].
  assert (He : number_char e = true).
  { unfold number_char. bools_in Ee. bools. lia. }
  destruct t as [|c t'].
  - cbn [span_digits]. split; [reflexivity|constructor].
  - destruct ((c =? 45) || (c =? 43)) eqn:Ec.
    + destruct (span_digits_inv t') as [Ht Hds].
      destruct (span_digits t') as [[|d ds] r]; cbn [fst snd] in *.
      * split; [reflexivity|constructor].
      * split; [cbn [app]; do 2 f_equal; exact Ht|].
        constructor; [exact He|]. cbn [app]. constructor.
        -- unfold number_char. bools_in Ec. bools. lia.
        -- apply digits_number_text. exact Hds.
    + destruct (span_digits_inv (c :: t')) as [Ht Hds].
      destruct (span_digits (c :: t')) as [[|d ds] r]; cbn [fst snd] in *.
      * split; [reflexivity|constructor].
      * split; [cbn [app]; f_equal; exact Ht|].
        constructor; [exact He|]. apply digits_number_text. exact Hds.
Qed.

Lemma match_number_inv (s text r : pystr) (b : bool) :
  match_number s = Some (text, b, r) ->
  s = text ++ r /\ text <> [] /\ number_text text.
Proof.
  unfold match_number.
  destruct (match_integer s) as [[i r0]|] eqn:Ei; [|discriminate].
  destruct (match_integer_inv _ _ _ Ei) as (-> & Hne & Hi).
  destruct (match_frac_inv r0) as [Hf1 Hf2].
  destruct (match_frac r0) as [fr r1]. cbn [fst snd] in *.
  destruct (match_exp_inv r1) as [He1 He2].
  destruct (match_exp r1) as [ex r2]. cbn [fst snd] in *.
  intros H. inversion H; subst. repeat split.
  - rewrite <- !app_assoc. reflexivity.
  - destruct i; [contradiction|discriminate].
  - unfold number_text. rewrite !Forall_app. repeat split; assumption.
Qed.

(** [repr] of an [int] *)

Lemma digits_value_snoc (ds : pystr) (c : N) :
  digits_value (ds ++ [c]) = digits_value ds * 10 + (c - 48).
Proof. unfold digits_value. rewrite fold_left_app. reflexivity. Qed.

Lemma log2_tenth (n : N) : n / 10 <> 0 -> N.log2 (n / 10) < N.log2 n.
Proof.
  intros H.
  assert (Hd : N.log2 (2 * (n / 10)) = N.succ (N.log2 (n / 10)))
    by (apply N.log2_double, N.neq_0_lt_0; exact H).
  assert (Hle : N.log2 (2 * (n / 10)) <= N.log2 n)
    by (apply N.log2_le_mono; nlia).
  lia.
Qed.

Lemma digits_loop_spec (fuel : nat) :
  forall n acc,
    lt (N.to_nat (N.log2 n)) fuel ->
    exists ds,
      digits_loop fuel n acc = ds ++ acc
      /\ Forall (fun c => is_digit c = true) ds
      /\ digits_value ds = n
      /\ match ds with d :: _ => n <> 0 -> d <> 48 | [] => False end.
Proof.
  induction fuel as [|fuel IH]; intros n acc Hf; [inversion Hf|].
  cbn [digits_loop].
  assert (Hm : n mod 10 < 10) by (apply N.mod_lt; discriminate).
  assert (Hdig : is_digit (48 + n mod 10) = true)
    by (unfold is_digit; bools; nlia).
  destruct (N.eqb_spec (n / 10) 0) as [Hq|Hq].
  - exists [48 + n mod 10]. repeat split.
    + constructor; [exact Hdig|constructor].
    + unfold digits_value. cbn [fold_left]. nlia.
    + intros Hn. nlia.
  - destruct (IH (n / 10) ((48 + n mod 10) :: acc)) as (ds & E & Hds & Hv & Hh).
    { pose proof (log2_tenth n Hq) as Hlog. clear - Hf Hlog. lia. }
    exists (ds ++ [48 + n mod 10]). repeat split.
    + rewrite E, <- app_assoc. reflexivity.
    + rewrite Forall_app. split; [exact Hds|].
      constructor; [exact Hdig|constructor].
    + rewrite digits_value_snoc, Hv. nlia.
    + destruct ds as [|d ds]; [contradiction|]. cbn [app].
      intros _. apply Hh. exact Hq.
Qed.

Lemma digits_spec (n : N) :
  Forall (fun c => is_digit c = true) (digits n)
  /\ digits_value (digits n) = n
  /\ match digits n with d :: _ => n <> 0 -> d <> 48 | [] => False end.
Proof.
  unfold digits.
  destruct (digits_loop_spec (S (N.to_nat (N.log2 n))) n []) as (ds & E & H).
  { lia. }
  rewrite E, app_nil_r. exact H.
Qed.

Lemma match_unsigned_digits (n : N) :
  match_unsigned (digits n) = Some (digits n, []).
Proof.
  destruct (digits_spec n) as (Hds & _ & Hh).
  destruct (N.eq_dec n 0) as [->|Hn]; [reflexivity|].
  destruct (digits n) as [|d ds]; [contradiction|].
  unfold match_unsigned. specialize (Hh Hn).
  destruct (N.eqb_spec d 48); [contradiction|].
  inversion Hds as [|? ? Hd Hds']; subst. rewrite Hd.
  rewrite (span_digits_all ds Hds'). reflexivity.
Qed.

Lemma digits_head (n : N) :
  exists d ds, digits n = d :: ds /\ is_digit d = true.
Proof.
  destruct (digits_spec n) as (Hds & _ & Hh).
  destruct (digits n) as [|d ds]; [contradiction|].
  exists d, ds. split; [reflexivity|]. inversion Hds; assumption.
Qed.

Lemma match_integer_int_repr (z : Z) :
  match_integer (int_repr z) = Some (int_repr z, []).
Proof.
  assert (Hneg : forall n, match_integer (45 :: digits n)
                           = Some (45 :: digits n, [])).
  { intros n. unfold match_integer. cbn [strip_prefix N.eqb Pos.eqb].
    rewrite match_unsigned_digits. reflexivity. }
  assert (Hpos : forall n, match_integer (digits n) = Some (digits n, [])).
  { intros n. unfold match_integer.
    destruct (digits_head n) as (d & ds & E & Hd).
    assert (Hp : strip_prefix [45] (digits n) = None).
    { rewrite E. cbn [strip_prefix]. unfold is_digit in Hd. bools_in Hd.
      destruct (N.eqb_spec 45 d); [lia|reflexivity]. }
    rewrite Hp. apply match_unsigned_digits. }
  destruct z as [|p|p]; cbn [int_repr]; rewrite ?Hneg, ?Hpos; reflexivity.
Qed.

Lemma match_number_int_repr (z : Z) :
  match_number (int_repr z) = Some (int_repr z, false, []).
Proof.
  unfold match_number. rewrite match_integer_int_repr.
  cbn. rewrite ?app_nil_r. reflexivity.
Qed.

Lemma int_of_literal_repr (z : Z) : int_of_literal (int_repr z) = z.
Proof.
  assert (Hpos : forall n, int_of_literal (digits n) = Z.of_N n).
  { intros n. destruct (digits_spec n) as (_ & Hv & _).
    destruct (digits_head n) as (d & ds & E & Hd).
    unfold int_of_literal. rewrite <- Hv at 2. rewrite E.
    unfold is_digit in Hd. bools_in Hd.
    destruct d as [|p]; [lia|].
    do 6 (destruct p as [p|p|]; try reflexivity; try lia). }
  destruct z as [|p|p]; cbn [int_repr].
  - apply Hpos.
  - rewrite Hpos. reflexivity.
  - unfold int_of_literal.
    destruct (digits_spec (N.pos p)) as (_ & Hv & _). rewrite Hv. reflexivity.
Qed.

Lemma int_repr_number_text (z : Z) : number_text (int_repr z).
Proof.
  assert (H : forall n, number_text (digits n)).
  { intros n. apply digits_number_text. apply (digits_spec n). }
  destruct z; cbn [int_repr]; try apply H.
  constructor; [reflexivity|apply H].
Qed.

(** ** Suffixes of the scanned text *)

Lemma suffix_refl (s : pystr) : suffix s s.
Proof. exists []. reflexivity. Qed.

Lemma later_suffix (s r : pystr) : later s r -> suffix s r.
Proof. intros (p & _ & E). exists p. exact E. Qed.

Lemma later_suffix_trans (s r t : pystr) : later s r -> suffix r t -> later s t.
Proof.
  intros (p & Hp & ->) (q & ->). exists (p ++ q). split.
  - destruct p; [contradiction|discriminate].
  - rewrite app_assoc. reflexivity.
Qed.

Lemma suffix_later_trans (s r t : pystr) : suffix s r -> later r t -> later s t.
Proof.
  intros (p & ->) (q & Hq & ->). exists (p ++ q). split.
  - destruct q; [contradiction|]. destruct p; discriminate.
  - rewrite app_assoc. reflexivity.
Qed.

Lemma suffix_scalars (s r : pystr) : suffix s r -> scalars s -> scalars r.
Proof. intros (p & ->). apply scalars_app_r. Qed.

Lemma suffix_length (s r : pystr) : suffix s r -> le (List.length r) (List.length s).
Proof. intros (p & ->). rewrite length_app. lia. Qed.

Lemma skip_ws_suffix (s : pystr) : suffix s (skip_ws s).
Proof.
  induction s as [|c t IH]; [apply suffix_refl|].
  cbn [skip_ws]. destruct (is_ws c); [|apply suffix_refl].
  destruct IH as (p & E). exists (c :: p). cbn [app]. f_equal. exact E.
Qed.

Lemma strip_prefix_later (k : N) (s r : pystr) :
  strip_prefix [k] s = Some r -> later s r.
Proof.
  intros H. apply strip_prefix_inv in H. subst. apply later_here.
Qed.

Lemma skip_ws_start (c : N) (t : pystr) :
  is_ws c = false -> skip_ws (c :: t) = c :: t.
Proof. intros H. cbn [skip_ws]. rewrite H. reflexivity. Qed.

Lemma next_chunk_later (s r : pystr) (c : N) :
  next_chunk s = CChar c r -> later s r.
Proof.
  unfold next_chunk. intros H.
  destruct s as [|a t]; [discriminate|].
  destruct (a =? 34); [discriminate|].
  destruct (a =? 92).
  - destruct t as [|esc t1]; [discriminate|].
    destruct (esc =? 117).
    + destruct (decode_uXXXX t1) as [[uni t2]|] eqn:Ed; [|discriminate].
      destruct (decode_uXXXX_inv _ _ _ Ed) as (_ & h1 & h2 & h3 & h4 & ->).
      assert (Hl : later (a :: esc :: h1 :: h2 :: h3 :: h4 :: t2) t2).
      { exists [a; esc; h1; h2; h3; h4]. split; [discriminate|reflexivity]. }
      destruct (is_high uni).
      * destruct (strip_prefix [92; 117] t2) as [t3|] eqn:Ep.
        -- destruct (decode_uXXXX t3) as [[uni2 t4]|] eqn:Ed2; [|discriminate].
           destruct (is_low uni2);
             apply CChar_inj in H; destruct H as [_ <-]; [|exact Hl].
           destruct (decode_uXXXX_inv _ _ _ Ed2) as (_ & g1 & g2 & g3 & g4 & ->).
           apply strip_prefix_inv in Ep. subst t2.
           eapply later_trans; [exact Hl|].
           exists [92; 117; g1; g2; g3; g4]. split; [discriminate|reflexivity].
        -- apply CChar_inj in H. destruct H as [_ <-]. exact Hl.
      * apply CChar_inj in H. destruct H as [_ <-]. exact Hl.
    + destruct (backslash esc); [|discriminate].
      apply CChar_inj in H. destruct H as [_ <-].
      apply later_cons, later_here.
  - destruct (a <? 32); [discriminate|].
    apply CChar_inj in H. destruct H as [_ <-]. apply later_here.
Qed.

Lemma scanstring_loop_later (fuel : nat) :
  forall s x r, scanstring_loop fuel s = Some (x, r) -> later s r.
Proof.
  induction fuel as [|fuel IH]; intros s x r H; [discriminate|].
  cbn [scanstring_loop] in H.
  destruct (next_chunk s) as [r0|c r0|] eqn:En; [| |discriminate].
  - inversion H; subst. apply next_chunk_end in En. subst. apply later_here.
  - destruct (scanstring_loop fuel r0) as [[x' r']|] eqn:El; [|discriminate].
    inversion H; subst.
    eapply later_trans; [eapply next_chunk_later; exact En|].
    eapply IH. exact El.
Qed.

Lemma scanstring_later (s x r : pystr) :
  scanstring s = Some (x, r) -> later s r.
Proof. apply scanstring_loop_later. Qed.

(** The loop of [scanstring] stops by itself: any amount of fuel above
    the length of the text gives the same result. *)
Lemma scanstring_loop_fuel (fuel : nat) :
  forall fuel' s,
    lt (List.length s) fuel -> lt (List.length s) fuel' ->
    scanstring_loop fuel s = scanstring_loop fuel' s.
Proof.
  induction fuel as [|fuel IH]; intros fuel' s Hf Hf'; [inversion Hf|].
  destruct fuel' as [|fuel']; [inversion Hf'|].
  cbn [scanstring_loop].
  destruct (next_chunk s) as [r0|c r0|] eqn:En; try reflexivity.
  pose proof (later_length _ _ (next_chunk_later _ _ _ En)) as Hlen.
  rewrite (IH fuel' r0) by lia. reflexivity.
Qed.

(** ** Records *)

Section Records.

Context {PF : PyFloat}.

Lemma value_induction (P : value -> Prop) :
  P JNull ->
  (forall b, P (JBool b)) ->
  (forall z, P (JInt z)) ->
  (forall x, P (JFloat x)) ->
  (forall x, P (JStr x)) ->
  (forall l, Forall P l -> P (JArr l)) ->
  (forall d, Forall (fun kv => P (snd kv)) d -> P (JObj d)) ->
  forall v, P v.
Proof.
  intros Hnull Hbool Hint Hfloat Hstr Harr Hobj.
  fix IH 1. intros [ |b|z|x|x|l|d].
  - exact Hnull.
  - apply Hbool.
  - apply Hint.
  - apply Hfloat.
  - apply Hstr.
  - apply Harr. induction l as [|v l IHl]; constructor; [apply IH|exact IHl].
  - apply Hobj. induction d as [|kv d IHd]; constructor; [apply IH|exact IHd].
Qed.

Lemma str_eqb_eq (a b : pystr) : str_eqb a b = true <-> a = b.
Proof.
  revert b. induction a as [|x a IH]; intros [|y b]; cbn [str_eqb];
    try (split; [discriminate|discriminate]); [split; reflexivity|].
  rewrite andb_true_iff, N.eqb_eq, IH. split.
  - intros [-> ->]. reflexivity.
  - intros H. inversion H. split; reflexivity.
Qed.

Lemma dict_set_keys (d : list (pystr * value)) (k : pystr) (v : value) :
  map fst (dict_set d k v)
  = if existsb (str_eqb k) (map fst d) then map fst d else map fst d ++ [k].
Proof.
  induction d as [|[k' v'] d IH]; [reflexivity|].
  cbn [dict_set map fst existsb].
  destruct (str_eqb k k') eqn:E; [reflexivity|].
  cbn [map fst orb]. rewrite IH.
  destruct (existsb (str_eqb k) (map fst d)); reflexivity.
Qed.

Lemma dict_set_fresh (d : list (pystr * value)) (k : pystr) (v : value) :
  existsb (str_eqb k) (map fst d) = false -> dict_set d k v = d ++ [(k, v)].
Proof.
  induction d as [|[k' v'] d IH]; [reflexivity|].
  cbn [dict_set map fst existsb]. intros H.
  apply orb_false_iff in H. destruct H as [H1 H2].
  rewrite H1, (IH H2). reflexivity.
Qed.

Lemma existsb_snoc (k a : pystr) (ks : list pystr) :
  existsb (str_eqb k) (ks ++ [a]) = existsb (str_eqb k) ks || str_eqb k a.
Proof. rewrite existsb_app. cbn [existsb]. rewrite orb_false_r. reflexivity. Qed.

Lemma str_eqb_sym (a b : pystr) : str_eqb a b = str_eqb b a.
Proof.
  destruct (str_eqb a b) eqn:E1, (str_eqb b a) eqn:E2; try reflexivity.
  - apply str_eqb_eq in E1. subst. rewrite (proj2 (str_eqb_eq b b) eq_refl) in E2.
    discriminate.
  - apply str_eqb_eq in E2. subst. rewrite (proj2 (str_eqb_eq a a) eq_refl) in E1.
    discriminate.
Qed.

Lemma distinct_snoc (ks : list pystr) (k : pystr) :
  distinct (ks ++ [k]) = distinct ks && negb (existsb (str_eqb k) ks).
Proof.
  induction ks as [|a ks IH].
  - reflexivity.
  - cbn [app distinct existsb]. rewrite IH, existsb_snoc, (str_eqb_sym k a).
    destruct (existsb (str_eqb a) ks), (str_eqb a k), (distinct ks),
      (existsb (str_eqb k) ks); reflexivity.
Qed.

(** [dict(pairs)] has distinct keys, and is [pairs] itself when the keys
    of [pairs] are distinct. *)
Lemma dict_from (pairs d : list (pystr * value)) :
  distinct (map fst d) = true ->
  forallb pair_ok d = true -> forallb pair_ok pairs = true ->
  let r := fold_left (fun d kv => dict_set d (fst kv) (snd kv)) pairs d in
  distinct (map fst r) = true /\ forallb pair_ok r = true.
Proof.
  revert d. induction pairs as [|[k v] pairs IH]; intros d Hd Hok Hps.
  - split; assumption.
  - cbn [fold_left fst snd]. cbn [forallb] in Hps.
    apply andb_true_iff in Hps. destruct Hps as [Hkv Hps].
    apply IH; [| |exact Hps].
    + rewrite dict_set_keys.
      destruct (existsb (str_eqb k) (map fst d)) eqn:E; [exact Hd|].
      rewrite distinct_snoc, Hd, E. reflexivity.
    + clear - Hok Hkv. induction d as [|[k' v'] d IHd].
      * cbn. rewrite Hkv. reflexivity.
      * cbn [dict_set]. cbn [forallb] in Hok. apply andb_true_iff in Hok.
        destruct Hok as [H1 H2]. unfold pair_ok in *. cbn [fst snd] in *.
        apply andb_true_iff in H1. destruct H1 as [H1 H1'].
        apply andb_true_iff in Hkv. destruct Hkv as [Hk Hv].
        destruct (str_eqb k k').
        -- cbn [forallb fst snd]. rewrite H1, Hv, H2. reflexivity.
        -- cbn [forallb fst snd]. rewrite H1, H1'. cbn [andb].
           apply IHd. exact H2.
Qed.

Lemma dict_ok (pairs : list (pystr * value)) :
  forallb pair_ok pairs = true -> record_ok (JObj (dict pairs)) = true.
Proof.
  intros H. destruct (dict_from pairs [] eq_refl eq_refl H) as [H1 H2].
  cbn [record_ok]. fold (dict pairs) in H1, H2.
  apply andb_true_iff. split; [exact H2|exact H1].
Qed.

Lemma dict_distinct_from (pairs d : list (pystr * value)) :
  distinct (map fst (d ++ pairs)) = true ->
  fold_left (fun d kv => dict_set d (fst kv) (snd kv)) pairs d = d ++ pairs.
Proof.
  revert d. induction pairs as [|[k v] pairs IH]; intros d Hd.
  - rewrite app_nil_r. reflexivity.
  - cbn [fold_left fst snd].
    replace (d ++ (k, v) :: pairs) with ((d ++ [(k, v)]) ++ pairs) in *
      by (rewrite <- app_assoc; reflexivity).
    rewrite dict_set_fresh; [apply IH; exact Hd|].
    clear IH. rewrite !map_app in Hd. cbn [map fst] in Hd.
    revert Hd. generalize (map fst d) (map fst pairs). intros ks ps.
    induction ks as [|a ks IHk]; [reflexivity|].
    cbn [app distinct existsb]. intros H.
    apply andb_true_iff in H. destruct H as [H1 H2].
    apply negb_true_iff in H1. rewrite !existsb_app in H1.
    cbn [existsb] in H1.
    rewrite (str_eqb_sym k a). rewrite (IHk H2).
    destruct (str_eqb a k) eqn:E; [|reflexivity].
    destruct (existsb (str_eqb a) ks); discriminate.
Qed.

Lemma dict_distinct (pairs : list (pystr * value)) :
  distinct (map fst pairs) = true -> dict pairs = pairs.
Proof. intros H. apply (dict_distinct_from pairs []). exact H. Qed.

End Records.

(** ** Decoding an encoded record *)

Section Roundtrip.

Context {PF : PyFloat} {laws : PyFloatLaws PF}.

Lemma number_char_start (c : N) : number_char c = true -> value_start c = true.
Proof.
  unfold number_char, is_digit, value_start, is_ws. intros H. bools_in H.
  bools. lia.
Qed.

Lemma float_repr_text (x : finite) :
  match_number (float_repr x) = Some (float_repr x, true, [])
  /\ float_repr x <> [] /\ number_text (float_repr x).
Proof.
  pose proof (float_repr_literal x) as H. unfold is_float_literal in H.
  destruct (match_number (float_repr x)) as [[[t b] r]|] eqn:E;
    [|discriminate].
  destruct b; [|discriminate]. destruct r; [|discriminate].
  destruct (match_number_inv _ _ _ _ E) as (Et & Hne & Hnum).
  rewrite app_nil_r in Et. subst t. repeat split; assumption.
Qed.

Lemma number_text_head (t : pystr) :
  t <> [] -> number_text t ->
  exists c t', t = c :: t' /\ number_char c = true.
Proof.
  intros Hne H. destruct t as [|c t']; [contradiction|].
  exists c, t'. split; [reflexivity|]. inversion H; assumption.
Qed.

Lemma int_repr_nonempty (z : Z) : int_repr z <> [].
Proof.
  destruct z; cbn [int_repr]; try discriminate;
    match goal with
    | |- digits ?n <> [] =>
      destruct (digits_head n) as (d & ds & E & _); rewrite E; discriminate
    end.
Qed.

Lemma dumps_head (v : value) :
  exists c t, json_dumps v = c :: t /\ value_start c = true.
Proof.
  destruct v as [ |[|]|z|[ | | |x]|x|l|d]; cbn [json_dumps floatstr];
    try (eexists; eexists; split; [reflexivity|reflexivity]).
  - destruct (number_text_head _ (int_repr_nonempty z) (int_repr_number_text z))
      as (c & t & E & Hc).
    exists c, t. split; [exact E|apply number_char_start; exact Hc].
  - destruct (float_repr_text x) as (_ & Hne & Hnum).
    destruct (number_text_head _ Hne Hnum) as (c & t & E & Hc).
    exists c, t. split; [exact E|apply number_char_start; exact Hc].
Qed.

Lemma value_start_skip (c : N) (t : pystr) :
  value_start c = true -> skip_ws (c :: t) = c :: t.
Proof.
  unfold value_start. intros H. apply andb_true_iff in H. destruct H as [H _].
  apply andb_true_iff in H. destruct H as [H _].
  apply andb_true_iff in H. destruct H as [H _].
  apply negb_true_iff in H. apply skip_ws_start. exact H.
Qed.

Lemma skip_ws_dumps (v : value) (rest : pystr) :
  skip_ws (json_dumps v ++ rest) = json_dumps v ++ rest.
Proof.
  destruct (dumps_head v) as (c & t & E & Hc). rewrite E. cbn [app].
  apply value_start_skip. exact Hc.
Qed.

Lemma scan_once_number (fuel : nat) (t rest : pystr) (b : bool) :
  match_number (t ++ rest) = Some (t, b, rest) ->
  t <> [] -> number_text t ->
  scan_once (S fuel) (t ++ rest)
  = Ok (if b then JFloat (float_of_literal t) else JInt (int_of_literal t),
        rest).
Proof.
  intros Hm Hne Hnum.
  destruct (number_text_head _ Hne Hnum) as (c & t' & E & Hc). subst t.
  cbn [app] in *. cbn [scan_once].
  unfold number_char, is_digit in Hc. bools_in Hc.
  destruct (N.eqb_spec c 34); [lia|].
  destruct (N.eqb_spec c 123); [lia|].
  destruct (N.eqb_spec c 91); [lia|].
  unfold scan_atom.
  assert (Hp : forall k p, k <> c ->
                           strip_prefix (k :: p) (c :: t' ++ rest) = None).
  { intros k p Hk. cbn [strip_prefix].
    destruct (N.eqb_spec k c); [contradiction|reflexivity]. }
  change (lit "null") with [110; 117; 108; 108].
  change (lit "true") with [116; 114; 117; 101].
  change (lit "false") with [102; 97; 108; 115; 101].
  rewrite !Hp by lia. rewrite Hm. destruct b; reflexivity.
Qed.

Lemma scans_back_atom (v : value) (text : pystr) (c : N) :
  json_dumps v = c :: text ->
  (forall fuel rest, stops rest = true ->
                     scan_once (S fuel) (json_dumps v ++ rest) = Ok (v, rest)) ->
  scans_back v.
Proof.
  intros E H _ rest fuel Hr Hf. destruct fuel as [|fuel].
  - rewrite E in Hf. cbn [List.length] in Hf. lia.
  - apply H. exact Hr.
Qed.

Lemma scans_back_number (v : value) (t : pystr) (b : bool) :
  json_dumps v = t ->
  match_number t = Some (t, b, []) -> number_text t ->
  (if b then JFloat (float_of_literal t) else JInt (int_of_literal t)) = v ->
  scans_back v.
Proof.
  intros E Hm Hnum Hv.
  assert (Hne : t <> []).
  { destruct (match_number_inv _ _ _ _ Hm) as (_ & Hne & _). exact Hne. }
  destruct t as [|c t'] eqn:Et; [contradiction|]. rewrite <- Et in *.
  apply (scans_back_atom v t' c); [rewrite E; exact Et|].
  intros fuel rest Hr. rewrite E.
  rewrite (scan_once_number fuel t rest b); [rewrite Hv; reflexivity| |exact Hne|exact Hnum].
  apply (match_number_ext t rest t [] b Hr Hm).
Qed.

Lemma scans_back_scalar (v : value) :
  match v with JArr _ | JObj _ => False | _ => True end -> scans_back v.
Proof.
  destruct v as [ |[|]|z|[ | | |x]|x|l|d]; intros Hv; try contradiction.
  - apply (scans_back_atom JNull (lit "ull") 110); [reflexivity|reflexivity].
  - apply (scans_back_atom (JBool true) (lit "rue") 116);
      [reflexivity|reflexivity].
  - apply (scans_back_atom (JBool false) (lit "alse") 102);
      [reflexivity|reflexivity].
  - apply (scans_back_number (JInt z) (int_repr z) false).
    + reflexivity.
    + apply match_number_int_repr.
    + apply int_repr_number_text.
    + rewrite int_of_literal_repr. reflexivity.
  - apply (scans_back_atom (JFloat FNaN) (lit "aN") 78);
      [reflexivity|reflexivity].
  - apply (scans_back_atom (JFloat FInf) (lit "nfinity") 73);
      [reflexivity|reflexivity].
  - apply (scans_back_atom (JFloat FNegInf) (lit "Infinity") 45);
      [reflexivity|reflexivity].
  - destruct (float_repr_text x) as (Hm & _ & Hnum).
    apply (scans_back_number (JFloat (FFinite x)) (float_repr x) true).
    + reflexivity.
    + exact Hm.
    + exact Hnum.
    + rewrite float_repr_inverse. reflexivity.
  - intros Hok rest fuel Hr Hf. cbn [json_dumps] in *.
    unfold encode_basestring_ascii in *.
    destruct fuel as [|fuel]; [cbn [List.length] in Hf; lia|].
    cbn [app scan_once N.eqb Pos.eqb]. rewrite <- app_assoc. cbn [app].
    rewrite scanstring_encoded by exact Hok. reflexivity.
Qed.

Lemma join_one (sep a : pystr) : join sep [a] = a.
Proof. reflexivity. Qed.

Lemma join_more (sep a b : pystr) (l : list pystr) :
  join sep (a :: b :: l) = a ++ sep ++ join sep (b :: l).
Proof. reflexivity. Qed.

Lemma join_head (v : value) (l : list value) :
  exists tl, join [44; 32] (map json_dumps (v :: l)) = json_dumps v ++ tl.
Proof.
  destruct l as [|v' l]; cbn [map].
  - exists []. rewrite join_one, app_nil_r. reflexivity.
  - eexists. rewrite join_more. reflexivity.
Qed.

Lemma skip_ws_join (v : value) (l : list value) (rest : pystr) :
  skip_ws (join [44; 32] (map json_dumps (v :: l)) ++ rest)
  = join [44; 32] (map json_dumps (v :: l)) ++ rest.
Proof.
  destruct (join_head v l) as (tl & ->). rewrite <- app_assoc.
  apply skip_ws_dumps.
Qed.

Lemma array_loop_dumps (l : list value) :
  l <> [] -> Forall scans_back l -> forallb record_ok l = true ->
  forall rest fuel,
    le (2 * List.length (join [44; 32] (map json_dumps l)) + 1) fuel ->
    array_loop fuel (join [44; 32] (map json_dumps l) ++ 93 :: rest)
    = Ok (l, rest).
Proof.
  induction l as [|v l IH]; intros Hne Hall Hok rest fuel Hf;
    [contradiction|].
  inversion Hall as [|? ? Hv Hl]; subst.
  cbn [forallb] in Hok. apply andb_true_iff in Hok. destruct Hok as [Hokv Hokl].
  destruct fuel as [|fuel]; [lia|].
  destruct l as [|v' l'].
  - cbn [map] in *. rewrite join_one in *. cbn [array_loop].
    rewrite (Hv Hokv (93 :: rest) fuel eq_refl) by lia. reflexivity.
  - change (map json_dumps (v :: v' :: l'))
      with (json_dumps v :: json_dumps v' :: map json_dumps l') in *.
    rewrite join_more in *.
    change (json_dumps v' :: map json_dumps l')
      with (map json_dumps (v' :: l')) in *.
    rewrite !length_app in Hf. cbn [List.length] in Hf.
    rewrite <- !app_assoc. cbn [app array_loop].
    rewrite (Hv Hokv (44 :: 32 :: join [44; 32] (map json_dumps (v' :: l'))
                         ++ 93 :: rest) fuel eq_refl) by lia.
    cbn [skip_ws is_ws strip_prefix N.eqb Pos.eqb orb].
    rewrite skip_ws_join.
    rewrite (IH ltac:(discriminate) Hl Hokl rest fuel) by lia.
    reflexivity.
Qed.

Lemma member_eq (k : pystr) (v : value) :
  member (k, v) = 34 :: flat_map escape_char k ++ 34 :: 58 :: 32 :: json_dumps v.
Proof.
  unfold member, encode_basestring_ascii. cbn [fst snd app].
  rewrite <- app_assoc. reflexivity.
Qed.

Lemma object_loop_dumps (d : list (pystr * value)) :
  d <> [] -> Forall (fun kv => scans_back (snd kv)) d ->
  forallb pair_ok d = true ->
  forall rest fuel,
    le (2 * List.length (join [44; 32] (map member d)) + 1) fuel ->
    exists body,
      join [44; 32] (map member d) = 34 :: body
      /\ object_loop fuel (body ++ 125 :: rest) = Ok (d, rest).
Proof.
  induction d as [|[k v] d IH]; intros Hne Hall Hok rest fuel Hf;
    [contradiction|].
  inversion Hall as [|? ? Hv Hd]; subst. cbn [snd] in Hv.
  cbn [forallb] in Hok. apply andb_true_iff in Hok. destruct Hok as [Hkv Hokd].
  unfold pair_ok in Hkv. cbn [fst snd] in Hkv.
  apply andb_true_iff in Hkv. destruct Hkv as [Hk Hokv].
  destruct fuel as [|fuel]; [lia|].
  destruct d as [|kv' d'].
  - cbn [map] in *. rewrite join_one, member_eq in *.
    eexists. split; [reflexivity|].
    cbn [List.length] in Hf. rewrite !length_app in Hf.
    cbn [List.length] in Hf.
    rewrite <- !app_assoc. cbn [app object_loop].
    rewrite scanstring_encoded by exact Hk.
    cbn [skip_ws is_ws strip_prefix N.eqb Pos.eqb orb].
    rewrite skip_ws_dumps.
    rewrite (Hv Hokv (125 :: rest) fuel eq_refl) by lia. reflexivity.
  - change (map member ((k, v) :: kv' :: d'))
      with (member (k, v) :: member kv' :: map member d') in *.
    rewrite join_more in *.
    change (member kv' :: map member d') with (map member (kv' :: d')) in *.
    rewrite !length_app in Hf. cbn [List.length] in Hf.
    destruct (IH ltac:(discriminate) Hd Hokd rest fuel) as (body & Eb & Hloop);
      [lia|].
    rewrite Eb, member_eq in *.
    eexists. split; [reflexivity|].
    cbn [List.length] in Hf. rewrite !length_app in Hf.
    cbn [List.length] in Hf.
    rewrite <- !app_assoc. cbn [app object_loop].
    rewrite scanstring_encoded by exact Hk.
    cbn [skip_ws is_ws strip_prefix N.eqb Pos.eqb orb].
    rewrite skip_ws_dumps.
    rewrite (Hv Hokv (44 :: 32 :: 34 :: body ++ 125 :: rest) fuel eq_refl)
      by lia.
    cbn [skip_ws is_ws strip_prefix N.eqb Pos.eqb orb].
    rewrite Hloop. reflexivity.
Qed.

Lemma value_start_not (c : N) (t : pystr) :
  value_start c = true ->
  strip_prefix [93] (c :: t) = None /\ strip_prefix [125] (c :: t) = None.
Proof.
  unfold value_start. intros H. bools_in H. cbn [strip_prefix].
  destruct (N.eqb_spec 93 c); [lia|]. destruct (N.eqb_spec 125 c); [lia|].
  split; reflexivity.
Qed.

Theorem scans_back_all (v : value) : scans_back v.
Proof.
  induction v as [ |b|z|x|x|l IH|d IH] using value_induction;
    try (apply scans_back_scalar; exact I).
  - intros Hok rest fuel Hr Hf. cbn [record_ok] in Hok.
    cbn [json_dumps] in *. change (lit ", ") with [44; 32] in *.
    destruct fuel as [|fuel]; [cbn [List.length] in Hf; lia|].
    cbn [List.length] in Hf. rewrite length_app in Hf. cbn [List.length] in Hf.
    cbn [app scan_once N.eqb Pos.eqb]. rewrite <- app_assoc. cbn [app].
    unfold JSONArray.
    destruct l as [|v l]; [reflexivity|].
    rewrite skip_ws_join.
    destruct (join_head v l) as (tl & Etl).
    destruct (dumps_head v) as (c & t & Ec & Hc).
    assert (Hp : strip_prefix [93]
                   (join [44; 32] (map json_dumps (v :: l)) ++ 93 :: rest)
                 = None).
    { rewrite Etl, Ec. cbn [app]. apply (value_start_not c _ Hc). }
    rewrite Hp.
    rewrite (array_loop_dumps (v :: l) ltac:(discriminate) IH Hok rest fuel)
      by lia.
    reflexivity.
  - intros Hok rest fuel Hr Hf. cbn [record_ok] in Hok.
    apply andb_true_iff in Hok. destruct Hok as [Hok Hdist].
    change (json_dumps (JObj d))
      with (123 :: join [44; 32] (map member d) ++ [125]) in *.
    destruct fuel as [|fuel]; [cbn [List.length] in Hf; lia|].
    cbn [List.length] in Hf. rewrite length_app in Hf. cbn [List.length] in Hf.
    cbn [app scan_once N.eqb Pos.eqb]. rewrite <- app_assoc. cbn [app].
    unfold JSONObject.
    destruct d as [|kv d]; [reflexivity|].
    destruct (object_loop_dumps (kv :: d) ltac:(discriminate) IH Hok rest fuel)
      as (body & Eb & Hloop); [lia|].
    rewrite Eb. cbn [app skip_ws is_ws strip_prefix N.eqb Pos.eqb orb].
    rewrite Hloop. rewrite (dict_distinct _ Hdist). reflexivity.
Qed.

End Roundtrip.

(** ** What the scanner returns *)

Section Scanner.

Context {PF : PyFloat}.

Lemma skip_later (s r : pystr) : later (skip_ws s) r -> later s r.
Proof. apply suffix_later_trans, skip_ws_suffix. Qed.

Lemma step_later (k : N) (s r : pystr) :
  strip_prefix [k] (skip_ws s) = Some r -> later s r.
Proof. intros H. apply skip_later. eapply strip_prefix_later. exact H. Qed.

Lemma strip_prefix_lit_later (p s r : pystr) :
  p <> [] -> strip_prefix p s = Some r -> later s r.
Proof.
  intros Hp H. apply strip_prefix_inv in H. exists p. split; assumption.
Qed.

Lemma scan_constant_ok (s r : pystr) (v : value) :
  scan_constant s = Ok (v, r) -> later s r /\ record_ok v = true.
Proof.
  unfold scan_constant. intros H.
  destruct (strip_prefix (lit "NaN") s) as [r1|] eqn:E1.
  { inversion H; subst. split; [|reflexivity].
    eapply strip_prefix_lit_later; [|exact E1]. discriminate. }
  destruct (strip_prefix (lit "Infinity") s) as [r2|] eqn:E2.
  { inversion H; subst. split; [|reflexivity].
    eapply strip_prefix_lit_later; [|exact E2]. discriminate. }
  destruct (strip_prefix (lit "-Infinity") s) as [r3|] eqn:E3; [|discriminate].
  inversion H; subst. split; [|reflexivity].
  eapply strip_prefix_lit_later; [|exact E3]. discriminate.
Qed.

Lemma scan_atom_ok (s r : pystr) (v : value) :
  scan_atom s = Ok (v, r) -> later s r /\ record_ok v = true.
Proof.
  unfold scan_atom. intros H.
  destruct (strip_prefix (lit "null") s) as [r1|] eqn:E1.
  { inversion H; subst. split; [|reflexivity].
    eapply strip_prefix_lit_later; [|exact E1]. discriminate. }
  destruct (strip_prefix (lit "true") s) as [r2|] eqn:E2.
  { inversion H; subst. split; [|reflexivity].
    eapply strip_prefix_lit_later; [|exact E2]. discriminate. }
  destruct (strip_prefix (lit "false") s) as [r3|] eqn:E3.
  { inversion H; subst. split; [|reflexivity].
    eapply strip_prefix_lit_later; [|exact E3]. discriminate. }
  destruct (match_number s) as [[[text b] r4]|] eqn:E4.
  - destruct (match_number_inv _ _ _ _ E4) as (Es & Hne & _).
    assert (Hl : later s r4) by (exists text; split; assumption).
    destruct b; inversion H; subst; split; try reflexivity; exact Hl.
  - apply scan_constant_ok. exact H.
Qed.

Lemma scan_atom_not_fuel (s : pystr) : scan_atom s <> Fuel.
Proof.
  unfold scan_atom, scan_constant.
  repeat match goal with
         | |- context [match ?x with _ => _ end] => destruct x
         end; discriminate.
Qed.

Lemma scan_once_step (fuel : nat) :
  array_loop_ok fuel -> object_loop_ok fuel -> scan_once_ok (S fuel).
Proof.
  intros IHa IHo s v r H. cbn [scan_once] in H.
  destruct s as [|c t]; [discriminate|].
  destruct (c =? 34).
  { destruct (scanstring t) as [[x r0]|] eqn:Es; [|discriminate].
    inversion H; subst. split.
    - apply later_cons. eapply scanstring_later. exact Es.
    - intros Hs. cbn [record_ok].
      apply (scanstring_ok _ _ _ Es). inversion Hs; assumption. }
  destruct (c =? 123).
  { unfold JSONObject in H.
    destruct (strip_prefix [125] (skip_ws t)) as [r1|] eqn:E1.
    - inversion H; subst. split; [|intros _; reflexivity].
      apply later_cons. eapply step_later. exact E1.
    - destruct (strip_prefix [34] (skip_ws t)) as [r2|] eqn:E2;
        [|discriminate].
      destruct (object_loop fuel r2) as [[pairs r3]| |] eqn:El;
        try discriminate.
      inversion H; subst.
      destruct (IHo _ _ _ El) as [Hl Hok].
      assert (Ht : later t r2) by (eapply step_later; exact E2).
      split.
      + apply later_cons. eapply later_trans; eassumption.
      + intros Hs. apply dict_ok. apply Hok.
        apply (later_scalars _ _ Ht). inversion Hs; assumption. }
  destruct (c =? 91).
  { unfold JSONArray in H.
    destruct (strip_prefix [93] (skip_ws t)) as [r1|] eqn:E1.
    - inversion H; subst. split; [|intros _; reflexivity].
      apply later_cons. eapply step_later. exact E1.
    - destruct (array_loop fuel (skip_ws t)) as [[values r3]| |] eqn:El;
        try discriminate.
      inversion H; subst.
      destruct (IHa _ _ _ El) as [Hl Hok]. split.
      + apply later_cons, skip_later. exact Hl.
      + intros Hs. cbn [record_ok]. apply Hok.
        apply (suffix_scalars _ _ (skip_ws_suffix t)).
        inversion Hs; assumption. }
  destruct (scan_atom_ok _ _ _ H) as [Hl Hok]. split; [exact Hl|].
  intros _. exact Hok.
Qed.

Lemma array_loop_step (fuel : nat) :
  scan_once_ok fuel -> array_loop_ok fuel -> array_loop_ok (S fuel).
Proof.
  intros IHs IHa s vs r H. cbn [array_loop] in H.
  destruct (scan_once fuel s) as [[v r1]| |] eqn:Ev; try discriminate.
  destruct (IHs _ _ _ Ev) as [Hl1 Hok1].
  destruct (strip_prefix [93] (skip_ws r1)) as [r2|] eqn:E1.
  - inversion H; subst. split.
    + eapply later_trans; [exact Hl1|]. eapply step_later. exact E1.
    + intros Hs. cbn [forallb]. rewrite (Hok1 Hs). reflexivity.
  - destruct (strip_prefix [44] (skip_ws r1)) as [r2|] eqn:E2;
      [|discriminate].
    destruct (array_loop fuel (skip_ws r2)) as [[vs' r3]| |] eqn:El;
      try discriminate.
    inversion H; subst.
    destruct (IHa _ _ _ El) as [Hl2 Hok2].
    assert (Hl : later s r2).
    { eapply later_trans; [exact Hl1|]. eapply step_later. exact E2. }
    split.
    + eapply later_trans; [exact Hl|]. apply skip_later. exact Hl2.
    + intros Hs. cbn [forallb]. rewrite (Hok1 Hs). apply Hok2.
      apply (suffix_scalars _ _ (skip_ws_suffix r2)).
      apply (later_scalars _ _ Hl Hs).
Qed.

Lemma object_loop_step (fuel : nat) :
  scan_once_ok fuel -> object_loop_ok fuel -> object_loop_ok (S fuel).
Proof.
  intros IHs IHo s ps r H. cbn [object_loop] in H.
  destruct (scanstring s) as [[key r0]|] eqn:Ek; [|discriminate].
  pose proof (scanstring_later _ _ _ Ek) as Hl0.
  destruct (strip_prefix [58] (skip_ws r0)) as [r1|] eqn:E1; [|discriminate].
  assert (Hl1 : later s r1).
  { eapply later_trans; [exact Hl0|]. eapply step_later. exact E1. }
  destruct (scan_once fuel (skip_ws r1)) as [[v r2]| |] eqn:Ev;
    try discriminate.
  destruct (IHs _ _ _ Ev) as [Hl2' Hokv].
  assert (Hl2 : later s r2).
  { eapply later_trans; [exact Hl1|]. apply skip_later. exact Hl2'. }
  assert (Hkv : scalars s -> pair_ok (key, v) = true).
  { intros Hs. unfold pair_ok. cbn [fst snd].
    rewrite (proj1 (scanstring_ok _ _ _ Ek Hs)). apply Hokv.
    apply (suffix_scalars _ _ (skip_ws_suffix r1)).
    apply (later_scalars _ _ Hl1 Hs). }
  destruct (strip_prefix [125] (skip_ws r2)) as [r3|] eqn:E3.
  - inversion H; subst. split.
    + eapply later_trans; [exact Hl2|]. eapply step_later. exact E3.
    + intros Hs. cbn [forallb]. rewrite (Hkv Hs). reflexivity.
  - destruct (strip_prefix [44] (skip_ws r2)) as [r3|] eqn:E4;
      [|discriminate].
    destruct (strip_prefix [34] (skip_ws r3)) as [r4|] eqn:E5;
      [|discriminate].
    destruct (object_loop fuel r4) as [[pairs r5]| |] eqn:El;
      try discriminate.
    inversion H; subst.
    destruct (IHo _ _ _ El) as [Hl5 Hok5].
    assert (Hl4 : later s r4).
    { eapply later_trans; [exact Hl2|].
      eapply later_trans; eapply step_later; eassumption. }
    split.
    + eapply later_trans; eassumption.
    + intros Hs. cbn [forallb]. rewrite (Hkv Hs). apply Hok5.
      apply (later_scalars _ _ Hl4 Hs).
Qed.

Lemma scanner_ok (fuel : nat) :
  scan_once_ok fuel /\ array_loop_ok fuel /\ object_loop_ok fuel.
Proof.
  induction fuel as [|fuel (IHs & IHa & IHo)].
  - split; [|split]; intros s0 v0 r0 H0; discriminate.
  - split; [apply scan_once_step; assumption|].
    split; [apply array_loop_step|apply object_loop_step]; assumption.
Qed.

(** The scanner never runs out of the fuel [decode] gives it. *)
Lemma scanner_fuel (fuel : nat) :
  (forall s, le (2 * List.length s + 1) fuel -> scan_once fuel s <> Fuel)
  /\ (forall s, le (2 * List.length s + 2) fuel -> array_loop fuel s <> Fuel)
  /\ (forall s, le (2 * List.length s + 2) fuel -> object_loop fuel s <> Fuel).
Proof.
  induction fuel as [|fuel (IHs & IHa & IHo)].
  - split; [|split]; intros s0 H0; lia.
  - split; [|split].
    + intros s Hf. cbn [scan_once].
      destruct s as [|c t]; [discriminate|]. cbn [List.length] in Hf.
      destruct (c =? 34); [destruct (scanstring t) as [[? ?]|]; discriminate|].
      destruct (c =? 123).
      { unfold JSONObject.
        destruct (strip_prefix [125] (skip_ws t)); [discriminate|].
        destruct (strip_prefix [34] (skip_ws t)) as [r2|] eqn:E2;
          [|discriminate].
        pose proof (later_length _ _ (step_later _ _ _ E2)) as Hlen.
        specialize (IHo r2 ltac:(lia)).
        destruct (object_loop fuel r2) as [[? ?]| |];
          [discriminate|discriminate|contradiction]. }
      destruct (c =? 91).
      { unfold JSONArray.
        destruct (strip_prefix [93] (skip_ws t)); [discriminate|].
        pose proof (suffix_length _ _ (skip_ws_suffix t)) as Hlen.
        specialize (IHa (skip_ws t) ltac:(lia)).
        destruct (array_loop fuel (skip_ws t)) as [[? ?]| |];
          [discriminate|discriminate|contradiction]. }
      apply scan_atom_not_fuel.
    + intros s Hf. cbn [array_loop].
      specialize (IHs s ltac:(lia)).
      destruct (scan_once fuel s) as [[v r1]| |] eqn:Ev;
        [|discriminate|contradiction].
      pose proof (later_length _ _ (proj1 (proj1 (scanner_ok fuel) _ _ _ Ev)))
        as Hl1.
      destruct (strip_prefix [93] (skip_ws r1)); [discriminate|].
      destruct (strip_prefix [44] (skip_ws r1)) as [r2|] eqn:E2;
        [|discriminate].
      pose proof (later_length _ _ (step_later _ _ _ E2)) as Hl2.
      pose proof (suffix_length _ _ (skip_ws_suffix r2)) as Hl3.
      specialize (IHa (skip_ws r2) ltac:(lia)).
      destruct (array_loop fuel (skip_ws r2)) as [[? ?]| |];
        [discriminate|discriminate|contradiction].
    + intros s Hf. cbn [object_loop].
      destruct (scanstring s) as [[key r0]|] eqn:Ek; [|discriminate].
      pose proof (later_length _ _ (scanstring_later _ _ _ Ek)) as Hl0.
      destruct (strip_prefix [58] (skip_ws r0)) as [r1|] eqn:E1;
        [|discriminate].
      pose proof (later_length _ _ (step_later _ _ _ E1)) as Hl1.
      pose proof (suffix_length _ _ (skip_ws_suffix r1)) as Hl1'.
      specialize (IHs (skip_ws r1) ltac:(lia)).
      destruct (scan_once fuel (skip_ws r1)) as [[v r2]| |] eqn:Ev;
        [|discriminate|contradiction].
      pose proof (later_length _ _ (proj1 (proj1 (scanner_ok fuel) _ _ _ Ev)))
        as Hl2.
      destruct (strip_prefix [125] (skip_ws r2)); [discriminate|].
      destruct (strip_prefix [44] (skip_ws r2)) as [r3|] eqn:E4;
        [|discriminate].
      pose proof (later_length _ _ (step_later _ _ _ E4)) as Hl3.
      destruct (strip_prefix [34] (skip_ws r3)) as [r4|] eqn:E5;
        [|discriminate].
      pose proof (later_length _ _ (step_later _ _ _ E5)) as Hl4.
      specialize (IHo r4 ltac:(lia)).
      destruct (object_loop fuel r4) as [[? ?]| |];
        [discriminate|discriminate|contradiction].
Qed.

Lemma decode_total (s : pystr) : decode s <> Fuel.
Proof.
  unfold decode, fuel_for.
  pose proof (suffix_length _ _ (skip_ws_suffix s)) as Hlen.
  pose proof (proj1 (scanner_fuel (2 * List.length s + 2)) (skip_ws s)
                ltac:(lia)) as Hf.
  destruct (scan_once (2 * List.length s + 2) (skip_ws s)) as [[v r]| |];
    [|discriminate|contradiction].
  destruct (skip_ws r); discriminate.
Qed.

Lemma json_loads_ok (s : pystr) (v : value) :
  json_loads s = Ret v -> scalars s -> record_ok v = true.
Proof.
  unfold json_loads, decode. intros H Hs.
  destruct (strip_prefix [65279] s); [discriminate|].
  destruct (scan_once (fuel_for s) (skip_ws s)) as [[obj r]| |] eqn:E;
    try discriminate.
  destruct (skip_ws r); [|discriminate]. inversion H; subst.
  apply (proj2 (proj1 (scanner_ok _) _ _ _ E)).
  apply (suffix_scalars _ _ (skip_ws_suffix s) Hs).
Qed.

End Scanner.

(** ** [bytes.decode] returns scalar values *)

Lemma option_map_cons_inv (c : N) (o : option pystr) (s : pystr) :
  option_map (cons c) o = Some s -> exists s', o = Some s' /\ s = c :: s'.
Proof.
  destruct o as [s'|]; [|discriminate]. cbn [option_map]. intros H.
  inversion H. exists s'. split; reflexivity.
Qed.

Lemma utf8_decode_scalars_upto (n : nat) :
  forall bs s,
    le (List.length bs) n -> utf8_decode bs = Some s -> scalars s.
Proof.
  induction n as [|n IH]; intros bs s Hn H.
  - destruct bs; [|inversion Hn]. inversion H. constructor.
  - destruct bs as [|x0 t0]; [inversion H; constructor|].
    cbn [utf8_decode] in H. cbn [List.length] in Hn.
    pose proof (Byte.to_N_bounded x0) as B0.
    set (b0 := Byte.to_N x0) in *. clearbody b0.
    destruct (N.ltb_spec b0 0x80) as [H1|H1].
    { apply option_map_cons_inv in H. destruct H as (s' & Hs' & ->).
      constructor; [unfold is_scalar; bools; lia|].
      apply (IH t0); [lia|exact Hs']. }
    destruct (N.ltb_spec b0 0xc2) as [H2|H2]; [discriminate|].
    destruct (N.ltb_spec b0 0xe0) as [H3|H3].
    { destruct t0 as [|x1 t1]; [discriminate|].
      pose proof (Byte.to_N_bounded x1) as B1.
      set (b1 := Byte.to_N x1) in *. clearbody b1.
      destruct (is_cont b1) eqn:C1; [|discriminate].
      apply option_map_cons_inv in H. destruct H as (s' & Hs' & ->).
      unfold is_cont in C1. bools_in C1.
      constructor; [unfold is_scalar; bools; lia|].
      cbn [List.length] in Hn. apply (IH t1); [lia|exact Hs']. }
    destruct (N.ltb_spec b0 0xf0) as [H4|H4].
    { destruct t0 as [|x1 [|x2 t2]]; try discriminate.
      pose proof (Byte.to_N_bounded x1) as B1.
      pose proof (Byte.to_N_bounded x2) as B2.
      set (b1 := Byte.to_N x1) in *. set (b2 := Byte.to_N x2) in *.
      clearbody b1 b2.
      destruct (is_second b0 b1 && is_cont b2) eqn:C; [|discriminate].
      apply option_map_cons_inv in H. destruct H as (s' & Hs' & ->).
      unfold is_second, second_lo, second_hi, is_cont in C.
      constructor.
      - unfold is_scalar.
        destruct (N.eqb_spec b0 0xe0); destruct (N.eqb_spec b0 0xf0);
          destruct (N.eqb_spec b0 0xed); destruct (N.eqb_spec b0 0xf4);
          bools_in C; bools; lia.
      - cbn [List.length] in Hn. apply (IH t2); [lia|exact Hs']. }
    destruct (N.ltb_spec b0 0xf5) as [H5|H5]; [|discriminate].
    destruct t0 as [|x1 [|x2 [|x3 t3]]]; try discriminate.
    pose proof (Byte.to_N_bounded x1) as B1.
    pose proof (Byte.to_N_bounded x2) as B2.
    pose proof (Byte.to_N_bounded x3) as B3.
    set (b1 := Byte.to_N x1) in *. set (b2 := Byte.to_N x2) in *.
    set (b3 := Byte.to_N x3) in *. clearbody b1 b2 b3.
    destruct (is_second b0 b1 && is_cont b2 && is_cont b3) eqn:C;
      [|discriminate].
    apply option_map_cons_inv in H. destruct H as (s' & Hs' & ->).
    unfold is_second, second_lo, second_hi, is_cont in C.
    constructor.
    + unfold is_scalar.
      destruct (N.eqb_spec b0 0xe0); destruct (N.eqb_spec b0 0xf0);
        destruct (N.eqb_spec b0 0xed); destruct (N.eqb_spec b0 0xf4);
        bools_in C; bools; lia.
    + cbn [List.length] in Hn. apply (IH t3); [lia|exact Hs'].
Qed.

Lemma utf8_decode_scalars (bs : list byte) (s : pystr) :
  utf8_decode bs = Some s -> scalars s.
Proof. apply (utf8_decode_scalars_upto (List.length bs)). lia. Qed.

(** ** The text of a record *)

Lemma printable_app (a b : pystr) :
  printable_text a -> printable_text b -> printable_text (a ++ b).
Proof. intros Ha Hb. apply Forall_app. split; assumption. Qed.

Lemma printable_join (sep : pystr) (chunks : list pystr) :
  printable_text sep -> Forall printable_text chunks ->
  printable_text (join sep chunks).
Proof.
  intros Hsep H. induction H as [|c l Hc Hl IH]; [constructor|].
  destruct l as [|c' l'].
  - rewrite join_one. exact Hc.
  - rewrite join_more. repeat apply printable_app; assumption.
Qed.

Lemma number_text_printable (t : pystr) : number_text t -> printable_text t.
Proof.
  apply Forall_impl. intros c H.
  unfold number_char, is_digit in H. bools_in H. unfold printable. bools. lia.
Qed.

Lemma hex_digit_printable (d : N) : d < 16 -> printable (hex_digit d) = true.
Proof.
  intros H. unfold hex_digit, printable.
  destruct (N.ltb_spec d 10); bools; lia.
Qed.

Lemma u_escape_printable (n : N) : n < 65536 -> printable_text (u_escape n).
Proof.
  intros H. unfold u_escape, hex4.
  repeat constructor; apply hex_digit_printable; nlia.
Qed.

Lemma escape_char_printable (c : N) : printable_text (escape_char c).
Proof.
  unfold escape_char.
  destruct (c =? 92); [repeat constructor|].
  destruct (c =? 34); [repeat constructor|].
  destruct (c =? 8); [repeat constructor|].
  destruct (c =? 12); [repeat constructor|].
  destruct (c =? 10); [repeat constructor|].
  destruct (c =? 13); [repeat constructor|].
  destruct (c =? 9); [repeat constructor|].
  destruct ((32 <=? c) && (c <=? 126)) eqn:E; [repeat constructor; exact E|].
  destruct (N.ltb_spec c 0x10000) as [H|H]; [apply u_escape_printable; exact H|].
  cbv zeta. rewrite high_surrogate_eq, low_surrogate_eq.
  generalize (c - 0x10000). intros m.
  assert (Ha : (m / 1024) mod 1024 < 1024) by (apply N.mod_lt; discriminate).
  assert (Hb : m mod 1024 < 1024) by (apply N.mod_lt; discriminate).
  apply printable_app; apply u_escape_printable.
  - clear - Ha. lia.
  - clear - Hb. lia.
Qed.

Lemma encode_basestring_printable (x : pystr) :
  printable_text (encode_basestring_ascii x).
Proof.
  unfold encode_basestring_ascii. constructor; [reflexivity|].
  apply printable_app; [|repeat constructor].
  induction x as [|c x IH]; [constructor|].
  cbn [flat_map]. apply printable_app; [apply escape_char_printable|exact IH].
Qed.

Section Text.

Context {PF : PyFloat} {laws : PyFloatLaws PF}.

Lemma json_dumps_printable (v : value) : printable_text (json_dumps v).
Proof.
  induction v as [ |b|z|x|x|l IH|d IH] using value_induction.
  - repeat constructor.
  - destruct b; repeat constructor.
  - apply number_text_printable, int_repr_number_text.
  - destruct x as [ | | |x]; try (repeat constructor).
    apply number_text_printable. apply (float_repr_text x).
  - apply encode_basestring_printable.
  - cbn [json_dumps]. constructor; [reflexivity|].
    apply printable_app; [|repeat constructor].
    apply printable_join; [repeat constructor|].
    apply Forall_map. exact IH.
  - cbn [json_dumps]. constructor; [reflexivity|].
    apply printable_app; [|repeat constructor].
    apply printable_join; [repeat constructor|].
    apply Forall_map. revert IH. apply Forall_impl. intros [k v] Hv.
    cbn [fst snd] in *.
    repeat apply printable_app;
      [apply encode_basestring_printable|repeat constructor|exact Hv].
Qed.

Lemma json_dumps_one_line (v : value) : ~ In 10 (json_dumps v).
Proof.
  intros H. pose proof (json_dumps_printable v) as Hp.
  unfold printable_text in Hp. rewrite Forall_forall in Hp.
  specialize (Hp 10 H). discriminate.
Qed.

Lemma json_loads_dumps (v : value) :
  record_ok v = true -> json_loads (json_dumps v) = Ret v.
Proof.
  intros Hok. unfold json_loads, decode.
  destruct (dumps_head v) as (c & t & E & Hc).
  assert (Hbom : strip_prefix [65279] (json_dumps v) = None).
  { rewrite E. cbn [strip_prefix]. unfold value_start in Hc. bools_in Hc.
    destruct (N.eqb_spec 65279 c); [lia|reflexivity]. }
  rewrite Hbom.
  pose proof (skip_ws_dumps v []) as Hws. rewrite app_nil_r in Hws.
  rewrite Hws.
  pose proof (scans_back_all v Hok [] (fuel_for (json_dumps v)) eq_refl) as Hs.
  rewrite app_nil_r in Hs. rewrite Hs by (unfold fuel_for; lia).
  reflexivity.
Qed.

End Text.

(** ** The integral floats satisfy the laws *)

Lemma integral_match_integer (z : Z) :
  match_integer (int_repr z ++ [46; 48]) = Some (int_repr z, [46; 48]).
Proof.
  apply (match_integer_more (int_repr z) [46; 48] (int_repr z) [] eq_refl).
  apply match_integer_int_repr.
Qed.

Lemma IntegralFloat_laws : PyFloatLaws IntegralFloat.
Proof.
  split; intros z; cbn [float_repr float_of_literal IntegralFloat].
  - unfold is_float_literal, match_number.
    change (lit ".0") with [46; 48]. rewrite integral_match_integer.
    reflexivity.
  - unfold integral_of_literal.
    change (lit ".0") with [46; 48]. rewrite integral_match_integer.
    rewrite int_of_literal_repr. reflexivity.
Qed.

(** ** The listener *)

Section ListenerFacts.

Context {PF : PyFloat}.

Lemma validate_raises (data : list byte) (e : exn) :
  validate data = Raise e -> e = UnicodeDecodeError \/ e = JSONDecodeError.
Proof.
  unfold validate, bytes_decode, json_loads.
  destruct (utf8_decode data) as [text|].
  - destruct (strip_prefix [65279] text);
      [intros H; inversion H; right; reflexivity|].
    destruct (decode text); intros H; inversion H; right; reflexivity.
  - intros H. inversion H. left. reflexivity.
Qed.

Lemma validate_ok (data : list byte) (obj : value) :
  validate data = Ret obj -> record_ok obj = true.
Proof.
  unfold validate, bytes_decode.
  destruct (utf8_decode data) as [text|] eqn:E; [|discriminate].
  intros H. apply (json_loads_ok _ _ H). apply (utf8_decode_scalars _ _ E).
Qed.

Lemma handle_invalid_json (data : list byte) (addr : address) (st : process) :
  validate data = Raise JSONDecodeError ->
  handle data addr st = (Ret tt, notify (InvalidJSON addr) st).
Proof.
  intros H. unfold handle, try_except, bind, lift. rewrite H. reflexivity.
Qed.

Lemma handle_uncaught (data : list byte) (addr : address) (st : process) :
  validate data = Raise UnicodeDecodeError ->
  handle data addr st = (Raise UnicodeDecodeError, st).
Proof.
  intros H. unfold handle, try_except, bind, lift. rewrite H. reflexivity.
Qed.

Lemma handle_accept (data : list byte) (addr : address) (st : process)
  (obj : value) :
  validate data = Ret obj ->
  handle data addr st
  = if closed (f st) then (Raise ValueError, st)
    else if fits (json_dumps obj ++ [10]) (f st)
         then (Ret tt,
               notify (ReceivedAndWrote addr)
                      (set_f (flushed (json_dumps obj ++ [10]) (f st)) st))
         else (Raise OSError,
               set_f (unflushed (json_dumps obj ++ [10]) (f st)) st).
Proof.
  intros H.
  unfold handle, try_except, bind, lift, f_write, f_flush, fits. rewrite H.
  destruct (closed (f st)) eqn:Ec; [reflexivity|].
  cbn [f set_f buffered closed room stored name mode exn_eqb].
  destruct (N.of_nat (List.length (buffered (f st) ++ json_dumps obj ++ [10]))
            <=? room (f st)); [|reflexivity].
  unfold print, notify, flushed, set_f. cbn [s f stdout]. reflexivity.
Qed.

Lemma serve_cons (d : datagram) (rest : list datagram) (st : process) :
  serve (d :: rest) st
  = match iteration d st with
    | (Ret _, st') => serve rest st'
    | (Raise e, st') => (Raise e, st')
    end.
Proof. reflexivity. Qed.

Lemma same_handles_refl (st : process) : same_handles st st.
Proof.
  repeat split. exists []. rewrite app_nil_r. reflexivity.
Qed.

Lemma same_handles_trans (a b c : process) :
  same_handles a b -> same_handles b c -> same_handles a c.
Proof.
  intros (H1 & H2 & H3 & o1 & H4) (K1 & K2 & K3 & o2 & K4).
  repeat split; try congruence.
  exists (o1 ++ o2). rewrite K4, H4, app_assoc. reflexivity.
Qed.

Lemma iteration_handles (d : datagram) (st : process) :
  same_handles st (snd (iteration d st)).
Proof.
  unfold iteration, recvfrom.
  destruct (validate (firstn (N.to_nat 65535) (payload d))) as [obj|e] eqn:E.
  - rewrite (handle_accept _ _ _ _ E).
    destruct (closed (f st)); [apply same_handles_refl|].
    destruct (fits (json_dumps obj ++ [10]) (f st)); cbn [snd].
    + repeat split. eexists. reflexivity.
    + repeat split. exists []. rewrite app_nil_r. reflexivity.
  - destruct (validate_raises _ _ E) as [-> | ->].
    + rewrite (handle_uncaught _ _ _ E). apply same_handles_refl.
    + rewrite (handle_invalid_json _ _ _ E). repeat split.
      eexists. reflexivity.
Qed.

Lemma serve_handles (ds : list datagram) :
  forall st, same_handles st (snd (serve ds st)).
Proof.
  induction ds as [|d ds IH]; intros st; [apply same_handles_refl|].
  rewrite serve_cons. pose proof (iteration_handles d st) as H.
  destruct (iteration d st) as [[[]|e] st1]; cbn [snd] in *.
  - eapply same_handles_trans; [exact H|apply IH].
  - exact H.
Qed.

End ListenerFacts.

(** * The properties of the specification *)

Section Claims.

Context {PF : PyFloat} {laws : PyFloatLaws PF}.


Lemma listen_runs_serve (env : environment) (ds : list datagram) :
  listen_udp_and_write env ds
  = match serve ds {| s := {| bound := Some (HOST, PORT); sock_closed := false |};
                      f := open_append env OUTPUT_FILE;
                      stdout := [Listening HOST PORT OUTPUT_FILE] |} with
    | (Ret _, st) => (Ret tt, st)
    | (Raise e, st) => (Raise e, with_exit st)
    end.
Proof.
  unfold listen_udp_and_write, bind, s_bind, print. cbn [s f stdout app].
  destruct (serve ds _) as [[[]|e] st]; reflexivity.
Qed.

(** Whatever the payload, bytes that are not valid UTF-8 end the loop, and
    the datagrams that follow are not looked at. *)
Lemma serve_invalid_utf8 (d : datagram) (rest : list datagram) (st : process) :
  utf8_decode (fst (recvfrom 65535 d)) = None ->
  serve (d :: rest) st = (Raise UnicodeDecodeError, st).
Proof.
  intros H. rewrite serve_cons. unfold iteration.
  destruct (recvfrom 65535 d) as [data addr]. cbn [fst] in H.
  rewrite handle_uncaught; [reflexivity|].
  unfold validate, bytes_decode. rewrite H. reflexivity.
Qed.

(** C1, as the code fails it: a datagram whose payload is not valid UTF-8
    (the single byte 0xff) is not recovered locally. [data.decode()] raises
    [UnicodeDecodeError], which [except json.JSONDecodeError] does not
    catch: the listener terminates with that exception, prints no
    notification of a decode failure and processes none of the datagrams
    that follow. *)
Theorem C1_invalid_utf8_terminates_listener :
  forall (env : environment) (addr : address) (rest : list datagram),
    let r := listen_udp_and_write env
               ({| payload := [xff]; sender := addr |} :: rest) in
    fst r = Raise UnicodeDecodeError
    /\ stdout (snd r) = [Listening HOST PORT OUTPUT_FILE]
    /\ stored (f (snd r)) = stored (open_append env OUTPUT_FILE).
Proof.
  intros env addr rest r. subst r.
  rewrite listen_runs_serve, serve_cons.
  unfold iteration, recvfrom. cbn [payload sender].
  rewrite handle_uncaught; [repeat split|].
  vm_compute. reflexivity.
Qed.


Lemma validate_reads_back (data : list byte) (obj : value) :
  validate data = Ret obj -> json_loads (json_dumps obj) = Ret obj.
Proof.
  intros H. apply json_loads_dumps. apply (validate_ok _ _ H).
Qed.

(** C3: a record that the validation returns for some payload is read
    back from its own encoding: [json.loads(json.dumps(R))] is [R] itself,
    with the keys of every dict in the same order (so also up to the order
    of keys). *)
Theorem C3_round_trip :
  forall (data : list byte) (obj : value),
    validate data = Ret obj ->
    json_loads (json_dumps obj) = Ret obj.
Proof.
  intros data obj H. apply (validate_reads_back data). exact H.
Qed.


(** C5: for a datagram that decodes to a record, with the sink open and
    room on the device, the iteration writes what was buffered, then the
    encoding of the record and one line feed, and has flushed all of it
    when it ends, which is before the loop receives the next datagram;
    the encoding holds no line feed and reads back as the record. *)
Theorem C5_append_writes_one_flushed_line :
  forall (d : datagram) (st : process) (obj : value) (rest : list datagram),
    validate (fst (recvfrom 65535 d)) = Ret obj ->
    closed (f st) = false ->
    fits (json_dumps obj ++ [10]) (f st) = true ->
    exists st',
      iteration d st = (Ret tt, st')
      /\ stored (f st')
         = stored (f st) ++ buffered (f st) ++ json_dumps obj ++ [10]
      /\ buffered (f st') = []
      /\ serve (d :: rest) st = serve rest st'
      /\ ~ In 10 (json_dumps obj)
      /\ json_loads (json_dumps obj) = Ret obj.
Proof.
  intros d st obj rest Hv Hc Hfit.
  rewrite serve_cons. unfold iteration.
  destruct (recvfrom 65535 d) as [data addr]. cbn [fst] in Hv.
  rewrite (handle_accept _ _ _ _ Hv), Hc, Hfit.
  eexists. split; [reflexivity|]. cbn [notify set_f flushed f stored buffered].
  repeat split.
  - apply json_dumps_one_line.
  - apply (validate_reads_back _ _ Hv).
Qed.


(** The exception that leaves the loop leaves the listener. *)
Lemma listen_raises (env : environment) (ds : list datagram) (e : exn)
  (st' : process) :
  serve ds {| s := {| bound := Some (HOST, PORT); sock_closed := false |};
              f := open_append env OUTPUT_FILE;
              stdout := [Listening HOST PORT OUTPUT_FILE] |} = (Raise e, st') ->
  listen_udp_and_write env ds = (Raise e, with_exit st').
Proof. intros H. rewrite listen_runs_serve, H. reflexivity. Qed.


(** C8: [recvfrom] is called with a buffer of 65535 bytes, so a payload of
    at most 65535 bytes reaches the [try] statement whole. *)
Theorem C8_receive_buffer :
  forall (d : datagram),
    N.of_nat (List.length (payload d)) <= 65535 ->
    recvfrom 65535 d = (payload d, sender d)
    /\ iteration d = handle (payload d) (sender d).
Proof.
  intros d H.
  assert (E : recvfrom 65535 d = (payload d, sender d)).
  { unfold recvfrom. rewrite firstn_all2; [reflexivity|]. lia. }
  split; [exact E|]. unfold iteration. rewrite E. reflexivity.
Qed.

(** C9: the defaults are host 0.0.0.0, port 1555 and file metrics.out, and
    whatever arrives the listener has its socket bound to that host and
    port, its sink opened for appending under that name, and announces
    them in its first line of output. *)
Theorem C9_defaults :
  HOST = "0.0.0.0"%string /\ PORT = 1555%Z
  /\ OUTPUT_FILE = "metrics.out"%string
  /\ forall (env : environment) (ds : list datagram),
      let st := snd (listen_udp_and_write env ds) in
      bound (s st) = Some ("0.0.0.0"%string, 1555%Z)
      /\ name (f st) = "metrics.out"%string
      /\ mode (f st) = "a"%string
      /\ hd_error (stdout st)
         = Some (Listening "0.0.0.0" 1555 "metrics.out").
Proof.
  repeat split; try reflexivity;
    rewrite listen_runs_serve;
    match goal with
    | |- context [serve ?ds ?st0] =>
      destruct (serve_handles ds st0) as (Hs & Hn & Hm & out & Ho);
        destruct (serve ds st0) as [[[]|e] st1]
    end;
    cbn [snd with_exit s f stdout bound name mode] in *;
    rewrite ?Hs, ?Hn, ?Hm, ?Ho; reflexivity.
Qed.

(** C10: the encoding of every record consists of printable ASCII
    characters only (from the space to the tilde), so it holds no line
    feed, and the line written for the record has exactly one, at its
    end. *)
Theorem C10_one_physical_line :
  forall (obj : value),
    printable_text (json_dumps obj)
    /\ ~ In 10 (json_dumps obj)
    /\ count_occ N.eq_dec (json_dumps obj ++ [10]) 10 = 1%nat.
Proof.
  intros obj. split; [apply json_dumps_printable|].
  split; [apply json_dumps_one_line|].
  rewrite count_occ_app.
  rewrite (proj1 (count_occ_not_In N.eq_dec _ _) (json_dumps_one_line obj)).
  reflexivity.
Qed.

End Claims.

(** * More on the loop *)

Section Loop.

Context {PF : PyFloat} {laws : PyFloatLaws PF}.

Lemma serve_rejected (d : datagram) (rest : list datagram) (st : process) :
  validate (fst (recvfrom 65535 d)) = Raise JSONDecodeError ->
  serve (d :: rest) st = serve rest (notify (InvalidJSON (sender d)) st).
Proof.
  intros H. rewrite serve_cons. unfold iteration, recvfrom in *.
  cbn [fst] in H. rewrite (handle_invalid_json _ _ _ H). reflexivity.
Qed.

Lemma serve_app (a b : list datagram) :
  forall st,
    serve (a ++ b) st
    = match serve a st with
      | (Ret _, st1) => serve b st1
      | (Raise e, st1) => (Raise e, st1)
      end.
Proof.
  induction a as [|d a IH]; intros st; [reflexivity|].
  cbn [app]. rewrite !serve_cons.
  destruct (iteration d st) as [[[]|e] st1]; [apply IH|reflexivity].
Qed.

Lemma skip_ws_blank (text : pystr) :
  forallb is_ws text = true -> skip_ws text = [].
Proof.
  induction text as [|c t IH]; [reflexivity|]. cbn [forallb skip_ws].
  intros H. apply andb_true_iff in H. destruct H as [Hc Ht].
  rewrite Hc. apply IH. exact Ht.
Qed.

Lemma json_loads_blank (text : pystr) :
  forallb is_ws text = true -> json_loads text = Raise JSONDecodeError.
Proof.
  intros H. unfold json_loads, decode.
  destruct (strip_prefix [65279] text); [reflexivity|].
  rewrite (skip_ws_blank _ H).
  replace (fuel_for text) with (S (2 * List.length text + 1))
    by (unfold fuel_for; lia).
  reflexivity.
Qed.

Lemma utf8_decode_bom (tail : list byte) :
  utf8_decode (xef :: xbb :: xbf :: tail)
  = option_map (cons 65279) (utf8_decode tail).
Proof. reflexivity. Qed.

Lemma utf8_decode_printable (t : pystr) :
  printable_text t -> utf8_decode (to_bytes t) = Some t.
Proof.
  induction 1 as [|c t Hc _ IH]; [reflexivity|].
  unfold printable in Hc. bools_in Hc.
  cbn [to_bytes map]. fold (to_bytes t).
  destruct (Byte.of_N c) as [b|] eqn:Eb.
  - apply Byte.to_of_N in Eb. cbn [utf8_decode]. rewrite Eb.
    destruct (N.ltb_spec c 128); [|lia]. rewrite IH. reflexivity.
  - apply Byte.of_N_None_iff in Eb. lia.
Qed.

Lemma iteration_report (d : datagram) (st st1 : process) :
  iteration d st = (Ret tt, st1) -> stdout st1 = stdout st ++ [report d].
Proof.
  unfold iteration, report. destruct (recvfrom 65535 d) as [data addr].
  cbn [fst snd]. destruct (validate data) as [obj|e] eqn:Ev.
  - rewrite (handle_accept _ _ _ _ Ev).
    destruct (closed (f st)); [discriminate|].
    destruct (fits (json_dumps obj ++ [10]) (f st)); [|discriminate].
    intros H. inversion H. reflexivity.
  - destruct (validate_raises _ _ Ev) as [-> | ->].
    + rewrite (handle_uncaught _ _ _ Ev). discriminate.
    + rewrite (handle_invalid_json _ _ _ Ev). intros H. inversion H.
      reflexivity.
Qed.

(** What an iteration keeps when the file is open: the file stays open,
    an exception is a [UnicodeDecodeError] or an [OSError], and an
    iteration that returns leaves an empty buffer empty. *)
Lemma iteration_open (d : datagram) (st : process) :
  closed (f st) = false ->
  closed (f (snd (iteration d st))) = false
  /\ (forall e, fst (iteration d st) = Raise e ->
                e = UnicodeDecodeError \/ e = OSError)
  /\ (buffered (f st) = [] -> fst (iteration d st) = Ret tt ->
      buffered (f (snd (iteration d st))) = []).
Proof.
  intros Hc. unfold iteration. destruct (recvfrom 65535 d) as [data addr].
  destruct (validate data) as [obj|e] eqn:Ev.
  - rewrite (handle_accept _ _ _ _ Ev), Hc.
    destruct (fits (json_dumps obj ++ [10]) (f st)); cbn [fst snd].
    + repeat split; try reflexivity. intros e H. discriminate.
    + repeat split; try reflexivity.
      * intros e H. inversion H. right. reflexivity.
      * intros _ H. discriminate.
  - destruct (validate_raises _ _ Ev) as [-> | ->].
    + rewrite (handle_uncaught _ _ _ Ev). cbn [fst snd].
      split; [exact Hc|]. split.
      * intros e H. inversion H. left. reflexivity.
      * intros _ H. discriminate.
    + rewrite (handle_invalid_json _ _ _ Ev). cbn [fst snd notify f].
      split; [exact Hc|]. split.
      * intros e H. discriminate.
      * intros Hb _. exact Hb.
Qed.

Lemma serve_open (ds : list datagram) :
  forall st,
    closed (f st) = false ->
    closed (f (snd (serve ds st))) = false
    /\ (forall e, fst (serve ds st) = Raise e ->
                  e = UnicodeDecodeError \/ e = OSError)
    /\ (buffered (f st) = [] -> fst (serve ds st) = Ret tt ->
        buffered (f (snd (serve ds st))) = []).
Proof.
  induction ds as [|d ds IH]; intros st Hc.
  - cbn [serve ret fst snd]. split; [exact Hc|]. split.
    + intros e H. discriminate.
    + intros Hb _. exact Hb.
  - rewrite serve_cons.
    destruct (iteration_open d st Hc) as (H1 & H2 & H3).
    destruct (iteration d st) as [[[]|e] st1]; cbn [fst snd] in *.
    + destruct (IH st1 H1) as (K1 & K2 & K3).
      split; [exact K1|]. split; [exact K2|].
      intros Hb Hr. apply K3; [apply H3; [exact Hb|reflexivity]|exact Hr].
    + split; [exact H1|]. split.
      * intros e' H. inversion H; subst. apply H2. reflexivity.
      * intros _ H. discriminate.
Qed.

Lemma iteration_appends (d : datagram) (st : process) :
  exists added, stored (f (snd (iteration d st))) = stored (f st) ++ added.
Proof.
  unfold iteration. destruct (recvfrom 65535 d) as [data addr].
  destruct (validate data) as [obj|e] eqn:Ev.
  - rewrite (handle_accept _ _ _ _ Ev).
    destruct (closed (f st)); [exists []; rewrite app_nil_r; reflexivity|].
    destruct (fits (json_dumps obj ++ [10]) (f st)); cbn [snd].
    + eexists. reflexivity.
    + exists []. rewrite app_nil_r. reflexivity.
  - exists []. rewrite app_nil_r.
    destruct (validate_raises _ _ Ev) as [-> | ->].
    + rewrite (handle_uncaught _ _ _ Ev). reflexivity.
    + rewrite (handle_invalid_json _ _ _ Ev). reflexivity.
Qed.

Lemma serve_appends (ds : list datagram) :
  forall st,
    exists added, stored (f (snd (serve ds st))) = stored (f st) ++ added.
Proof.
  induction ds as [|d ds IH]; intros st.
  - exists []. rewrite app_nil_r. reflexivity.
  - rewrite serve_cons. destruct (iteration_appends d st) as (a1 & H1).
    destruct (iteration d st) as [[[]|e] st1]; cbn [snd] in *.
    + destruct (IH st1) as (a2 & H2). exists (a1 ++ a2).
      rewrite H2, H1, app_assoc. reflexivity.
    + exists a1. exact H1.
Qed.

(** X1: a datagram whose payload is UTF-8 text that [json.loads] rejects is
    dropped: the loop prints the invalid-JSON line with the address of the
    sender, leaves the file as it is, and goes on with the datagrams that
    follow. *)
Theorem X1_invalid_json_is_dropped :
  forall (d : datagram) (rest : list datagram) (st : process) (text : pystr),
    utf8_decode (fst (recvfrom 65535 d)) = Some text ->
    json_loads text = Raise JSONDecodeError ->
    serve (d :: rest) st = serve rest (notify (InvalidJSON (sender d)) st).
Proof.
  intros d rest st text Ht Hj. apply serve_rejected.
  unfold validate, bytes_decode. rewrite Ht. exact Hj.
Qed.

(** X2: wherever in the arrivals a datagram comes whose payload is not
    valid UTF-8, the loop ends there with [UnicodeDecodeError], in the
    state the datagrams before it left, and none of the datagrams after it
    is processed. *)
Theorem X2_undecodable_payload_ends_loop :
  forall (before : list datagram) (d : datagram) (rest : list datagram)
         (st st1 : process),
    serve before st = (Ret tt, st1) ->
    utf8_decode (fst (recvfrom 65535 d)) = None ->
    serve (before ++ d :: rest) st = (Raise UnicodeDecodeError, st1).
Proof.
  intros before d rest st st1 Hb Hd. rewrite serve_app, Hb, serve_cons.
  unfold iteration. destruct (recvfrom 65535 d) as [data addr].
  cbn [fst] in Hd. rewrite handle_uncaught; [reflexivity|].
  unfold validate, bytes_decode. rewrite Hd. reflexivity.
Qed.


(** X4: while the loop runs it prints one line for each datagram, in the
    order of arrival and with the address of its sender: the
    received-and-wrote line when the payload decoded, the invalid-JSON
    line when it did not. *)
Theorem X4_one_report_per_datagram :
  forall (ds : list datagram) (st st' : process),
    serve ds st = (Ret tt, st') ->
    stdout st' = stdout st ++ map report ds.
Proof.
  induction ds as [|d ds IH]; intros st st' H.
  - inversion H. cbn [map]. rewrite app_nil_r. reflexivity.
  - rewrite serve_cons in H.
    destruct (iteration d st) as [[[]|e] st1] eqn:Ei; [|discriminate].
    rewrite (IH _ _ H), (iteration_report _ _ _ Ei).
    cbn [map]. rewrite <- app_assoc. reflexivity.
Qed.

(** X5: the listener only appends: whatever arrives and however the run
    ends, the sink begins with what the file held when the listener
    started (nothing, when there was no such file). *)
Theorem X5_sink_is_append_only :
  forall (env : environment) (ds : list datagram),
    exists added,
      stored (f (snd (listen_udp_and_write env ds)))
      = match files env OUTPUT_FILE with Some c => c | None => [] end
        ++ added.
Proof.
  intros env ds. rewrite listen_runs_serve.
  match goal with
  | |- context [serve ds ?st0] =>
    destruct (serve_appends ds st0) as (added & H);
      destruct (serve ds st0) as [[[]|e] st1]
  end; exists added; exact H.
Qed.

(** X6: a line of the sink is a payload the listener takes: the ASCII
    bytes of the encoding of an accepted record decode to the same record,
    so sending a written line again writes the same line again. *)
Theorem X6_written_line_is_accepted_again :
  forall (data : list byte) (obj : value),
    validate data = Ret obj ->
    validate (to_bytes (json_dumps obj)) = Ret obj.
Proof.
  intros data obj H. unfold validate, bytes_decode.
  rewrite (utf8_decode_printable _ (json_dumps_printable obj)).
  apply (validate_reads_back _ _ H).
Qed.

(** X7: two accepted records with the same encoding are the same record:
    no two different records are written as the same line. *)
Theorem X7_lines_tell_records_apart :
  forall (data1 data2 : list byte) (a b : value),
    validate data1 = Ret a -> validate data2 = Ret b ->
    json_dumps a = json_dumps b -> a = b.
Proof.
  intros data1 data2 a b Ha Hb E.
  pose proof (validate_reads_back _ _ Ha) as Ra.
  pose proof (validate_reads_back _ _ Hb) as Rb.
  rewrite E, Rb in Ra. inversion Ra. reflexivity.
Qed.

(** X8: an empty payload, or one of spaces, tabs, line feeds and carriage
    returns only, is not a record: it is announced as invalid JSON and
    dropped, and the loop goes on. *)
Theorem X8_blank_payload_is_dropped :
  forall (d : datagram) (rest : list datagram) (st : process) (text : pystr),
    utf8_decode (fst (recvfrom 65535 d)) = Some text ->
    forallb is_ws text = true ->
    serve (d :: rest) st = serve rest (notify (InvalidJSON (sender d)) st).
Proof.
  intros d rest st text Ht Hw. apply serve_rejected.
  unfold validate, bytes_decode. rewrite Ht. apply json_loads_blank, Hw.
Qed.

(** X9: a payload that starts with the UTF-8 byte order mark (EF BB BF) and
    is UTF-8 after it is rejected as invalid JSON, whatever follows the
    mark: it is announced and dropped, and the loop goes on. *)
Theorem X9_byte_order_mark_is_dropped :
  forall (d : datagram) (rest : list datagram) (st : process)
         (tail : list byte) (text : pystr),
    fst (recvfrom 65535 d) = xef :: xbb :: xbf :: tail ->
    utf8_decode tail = Some text ->
    serve (d :: rest) st = serve rest (notify (InvalidJSON (sender d)) st).
Proof.
  intros d rest st tail text Hd Ht. apply serve_rejected.
  unfold validate, bytes_decode. rewrite Hd, utf8_decode_bom, Ht.
  reflexivity.
Qed.

(** X10: in an accepted record every object has pairwise distinct keys (a
    key repeated in the payload is kept once), and every string is made of
    code points up to 10FFFF in which no high surrogate stands before a low
    one. *)
Theorem X10_accepted_record_is_well_formed :
  forall (data : list byte) (obj : value),
    validate data = Ret obj -> record_ok obj = true.
Proof.
  intros data obj H. unfold validate, bytes_decode in H.
  destruct (utf8_decode data) as [text|] eqn:E; [|discriminate].
  apply (json_loads_ok _ _ H). apply (utf8_decode_scalars _ _ E).
Qed.

(** X11: while the listener runs, after any arrivals, its file is open
    with nothing left in the buffer and its socket is open. *)
Theorem X11_running_listener_has_flushed :
  forall (env : environment) (ds : list datagram) (st : process),
    listen_udp_and_write env ds = (Ret tt, st) ->
    closed (f st) = false /\ buffered (f st) = []
    /\ sock_closed (s st) = false.
Proof.
  intros env ds st. rewrite listen_runs_serve.
  match goal with
  | |- context [serve ds ?st0] =>
    destruct (serve_open ds st0 eq_refl) as (H1 & _ & H3);
      destruct (serve_handles ds st0) as (Hs & _);
      destruct (serve ds st0) as [[[]|e] st1]
  end; cbn [fst snd] in *; [|discriminate].
  intros K. inversion K; subst.
  split; [exact H1|]. split; [apply H3; reflexivity|].
  rewrite Hs. reflexivity.
Qed.


End Loop.

(** * Concrete datagrams *)


Lemma C3_witness :
  validate (to_bytes reading_text) = Ret reading
  /\ json_loads (json_dumps reading) = Ret reading.
Proof.
  assert (H : validate (to_bytes reading_text) = Ret reading)
    by (vm_compute; reflexivity).
  split; [exact H|].
  apply (@C3_round_trip IntegralFloat IntegralFloat_laws
           (to_bytes reading_text) reading H).
Defined.


Lemma C5_witness :
  validate (fst (recvfrom 65535 (from reading_text))) = Ret reading
  /\ closed (f started) = false
  /\ fits (json_dumps reading ++ [10]) (f started) = true
  /\ exists st',
      iteration (PF := IntegralFloat) (from reading_text) started = (Ret tt, st')
      /\ stored (f st')
         = stored (f started) ++ buffered (f started)
           ++ json_dumps reading ++ [10]
      /\ buffered (f st') = []
      /\ serve (PF := IntegralFloat) (from reading_text :: [from (lit "7")]) started
         = serve (PF := IntegralFloat) [from (lit "7")] st'
      /\ ~ In 10 (json_dumps reading)
      /\ json_loads (json_dumps reading) = Ret reading.
Proof.
  assert (Hv : validate (fst (recvfrom 65535 (from reading_text)))
               = Ret reading) by (vm_compute; reflexivity).
  assert (Hc : closed (f started) = false) by reflexivity.
  assert (Hf : fits (json_dumps reading ++ [10]) (f started) = true)
    by (vm_compute; reflexivity).
  split; [exact Hv|]. split; [exact Hc|]. split; [exact Hf|].
  apply (@C5_append_writes_one_flushed_line IntegralFloat IntegralFloat_laws
           (from reading_text) started reading [from (lit "7")] Hv Hc Hf).
Defined.




Lemma C8_witness :
  N.of_nat (List.length (payload (from reading_text))) <= 65535
  /\ recvfrom 65535 (from reading_text)
     = (payload (from reading_text), sender (from reading_text))
  /\ iteration (PF := IntegralFloat) (from reading_text)
     = handle (PF := IntegralFloat) (payload (from reading_text))
         (sender (from reading_text)).
Proof.
  assert (H : N.of_nat (List.length (payload (from reading_text))) <= 65535)
    by (vm_compute; discriminate).
  split; [exact H|].
  apply (@C8_receive_buffer IntegralFloat (from reading_text) H).
Defined.

Lemma C10_witness :
  printable_text (json_dumps awkward)
  /\ ~ In 10 (json_dumps awkward)
  /\ count_occ N.eq_dec (json_dumps awkward ++ [10]) 10 = 1%nat.
Proof.
  apply (@C10_one_physical_line IntegralFloat IntegralFloat_laws awkward).
Defined.

(** ** Scenarios *)

Example scanstring_escapes :
  scanstring (lit "a\n\u00e9\ud83d\ude00\/" ++ 34 :: lit ",1")
  = Some ([97; 10; 233; 128512; 47], lit ",1").
Proof. vm_compute. reflexivity. Qed.

Example encode_escapes :
  encode_basestring_ascii [97; 10; 233; 128512; 47; 127]
  = 34 :: lit "a\n\u00e9\ud83d\ude00/\u007f" ++ [34].
Proof. vm_compute. reflexivity. Qed.

Example match_number_cases :
  match_number (lit "-12.50e+3,") = Some (lit "-12.50e+3", true, lit ",")
  /\ match_number (lit "1.e5") = Some (lit "1", false, lit ".e5")
  /\ match_number (lit "01") = Some (lit "0", false, lit "1")
  /\ match_number (lit "-x") = None.
Proof. repeat split; reflexivity. Qed.

Example awkward_text :
  json_dumps awkward
  = quoted "{'\n\'': '\r\n\u00e9\ud83d\ude00\u2028'}".
Proof. vm_compute. reflexivity. Qed.

(** Scenarios A and B of the specification: a record is appended, a text
    that is not JSON is announced and dropped. *)
Example scenario_A_B :
  let r := listen_udp_and_write (PF := IntegralFloat) no_files
             [from (quoted "{'temp': 42.0}"); from (lit "not json")] in
  fst r = Ret tt
  /\ stored (f (snd r)) = quoted "{'temp': 42.0}" ++ [10]
  /\ stdout (snd r)
     = [Listening HOST PORT OUTPUT_FILE;
        ReceivedAndWrote ("192.0.2.7"%string, 40000%Z);
        InvalidJSON ("192.0.2.7"%string, 40000%Z)].
Proof. vm_compute. repeat split. Qed.

(** Duplicate keys: the last value wins at the position of the first. *)
Example duplicate_keys :
  validate (PF := IntegralFloat) (to_bytes (quoted "{'a':1,'b':2,'a':3}"))
  = Ret (JObj [(lit "a", JInt 3); (lit "b", JInt 2)]).
Proof. vm_compute. reflexivity. Qed.

(** ** The loop on concrete arrivals *)

Lemma X1_witness :
  utf8_decode (fst (recvfrom 65535 (from (lit "not json"))))
  = Some (lit "not json")
  /\ json_loads (PF := IntegralFloat) (lit "not json") = Raise JSONDecodeError
  /\ serve (PF := IntegralFloat) (from (lit "not json") :: [from (lit "[1, 2]")])
       started
     = serve (PF := IntegralFloat) [from (lit "[1, 2]")]
         (notify (InvalidJSON (sender (from (lit "not json")))) started).
Proof.
  assert (Ht : utf8_decode (fst (recvfrom 65535 (from (lit "not json"))))
               = Some (lit "not json")) by (vm_compute; reflexivity).
  assert (Hj : json_loads (PF := IntegralFloat) (lit "not json")
               = Raise JSONDecodeError) by (vm_compute; reflexivity).
  split; [exact Ht|]. split; [exact Hj|].
  apply (@X1_invalid_json_is_dropped IntegralFloat (from (lit "not json"))
           [from (lit "[1, 2]")] started (lit "not json") Ht Hj).
Defined.

Lemma X2_witness :
  serve (PF := IntegralFloat) [from reading_text] started
  = (Ret tt, snd (serve (PF := IntegralFloat) [from reading_text] started))
  /\ utf8_decode (fst (recvfrom 65535 garbled)) = None
  /\ serve (PF := IntegralFloat)
       ([from reading_text] ++ garbled :: [from (lit "[1, 2]")]) started
     = (Raise UnicodeDecodeError,
        snd (serve (PF := IntegralFloat) [from reading_text] started)).
Proof.
  assert (Hb : serve (PF := IntegralFloat) [from reading_text] started
               = (Ret tt,
                  snd (serve (PF := IntegralFloat) [from reading_text]
                         started))) by (vm_compute; reflexivity).
  assert (Hd : utf8_decode (fst (recvfrom 65535 garbled)) = None)
    by (vm_compute; reflexivity).
  split; [exact Hb|]. split; [exact Hd|].
  apply (@X2_undecodable_payload_ends_loop IntegralFloat [from reading_text]
           garbled [from (lit "[1, 2]")] started _ Hb Hd).
Defined.


Lemma X4_witness :
  serve (PF := IntegralFloat) three_datagrams started
  = (Ret tt, snd (serve (PF := IntegralFloat) three_datagrams started))
  /\ stdout (snd (serve (PF := IntegralFloat) three_datagrams started))
     = stdout started ++ map (report (PF := IntegralFloat)) three_datagrams.
Proof.
  assert (H : serve (PF := IntegralFloat) three_datagrams started
              = (Ret tt,
                 snd (serve (PF := IntegralFloat) three_datagrams started)))
    by (vm_compute; reflexivity).
  split; [exact H|].
  apply (@X4_one_report_per_datagram IntegralFloat three_datagrams started _ H).
Defined.

Lemma X6_witness :
  validate (to_bytes reading_text) = Ret reading
  /\ validate (to_bytes (json_dumps reading)) = Ret reading.
Proof.
  assert (H : validate (to_bytes reading_text) = Ret reading)
    by (vm_compute; reflexivity).
  split; [exact H|].
  apply (@X6_written_line_is_accepted_again IntegralFloat IntegralFloat_laws
           (to_bytes reading_text) reading H).
Defined.

Lemma X7_witness :
  validate (to_bytes reading_text) = Ret reading
  /\ validate (to_bytes (json_dumps reading)) = Ret reading
  /\ json_dumps reading = json_dumps reading
  /\ reading = reading.
Proof.
  assert (H1 : validate (to_bytes reading_text) = Ret reading)
    by (vm_compute; reflexivity).
  assert (H2 : validate (to_bytes (json_dumps reading)) = Ret reading)
    by (vm_compute; reflexivity).
  split; [exact H1|]. split; [exact H2|]. split; [reflexivity|].
  apply (@X7_lines_tell_records_apart IntegralFloat IntegralFloat_laws
           (to_bytes reading_text) (to_bytes (json_dumps reading))
           reading reading H1 H2 eq_refl).
Defined.

Lemma X8_witness :
  utf8_decode (fst (recvfrom 65535 (from [32; 9; 10; 13])))
  = Some [32; 9; 10; 13]
  /\ forallb is_ws [32; 9; 10; 13] = true
  /\ serve (PF := IntegralFloat) (from [32; 9; 10; 13] :: [from (lit "[1, 2]")])
       started
     = serve (PF := IntegralFloat) [from (lit "[1, 2]")]
         (notify (InvalidJSON (sender (from [32; 9; 10; 13]))) started).
Proof.
  assert (Ht : utf8_decode (fst (recvfrom 65535 (from [32; 9; 10; 13])))
               = Some [32; 9; 10; 13]) by (vm_compute; reflexivity).
  assert (Hw : forallb is_ws [32; 9; 10; 13] = true) by reflexivity.
  split; [exact Ht|]. split; [exact Hw|].
  apply (@X8_blank_payload_is_dropped IntegralFloat (from [32; 9; 10; 13])
           [from (lit "[1, 2]")] started [32; 9; 10; 13] Ht Hw).
Defined.

Lemma X9_witness :
  fst (recvfrom 65535 marked) = xef :: xbb :: xbf :: to_bytes (lit "[1]")
  /\ utf8_decode (to_bytes (lit "[1]")) = Some (lit "[1]")
  /\ serve (PF := IntegralFloat) (marked :: [from (lit "[1, 2]")]) started
     = serve (PF := IntegralFloat) [from (lit "[1, 2]")]
         (notify (InvalidJSON (sender marked)) started).
Proof.
  assert (Hd : fst (recvfrom 65535 marked)
               = xef :: xbb :: xbf :: to_bytes (lit "[1]"))
    by (vm_compute; reflexivity).
  assert (Ht : utf8_decode (to_bytes (lit "[1]")) = Some (lit "[1]"))
    by (vm_compute; reflexivity).
  split; [exact Hd|]. split; [exact Ht|].
  apply (@X9_byte_order_mark_is_dropped IntegralFloat marked
           [from (lit "[1, 2]")] started (to_bytes (lit "[1]")) (lit "[1]")
           Hd Ht).
Defined.

Lemma X10_witness :
  validate (to_bytes reading_text) = Ret reading
  /\ record_ok reading = true.
Proof.
  assert (H : validate (to_bytes reading_text) = Ret reading)
    by (vm_compute; reflexivity).
  split; [exact H|].
  apply (@X10_accepted_record_is_well_formed IntegralFloat
           (to_bytes reading_text) reading H).
Defined.

Lemma X11_witness :
  listen_udp_and_write (PF := IntegralFloat) no_files three_datagrams
  = (Ret tt,
     snd (listen_udp_and_write (PF := IntegralFloat) no_files three_datagrams))
  /\ closed (f (snd (listen_udp_and_write (PF := IntegralFloat) no_files
                       three_datagrams))) = false
  /\ buffered (f (snd (listen_udp_and_write (PF := IntegralFloat) no_files
                         three_datagrams))) = []
  /\ sock_closed (s (snd (listen_udp_and_write (PF := IntegralFloat) no_files
                            three_datagrams))) = false.
Proof.
  assert (H : listen_udp_and_write (PF := IntegralFloat) no_files
                three_datagrams
              = (Ret tt,
                 snd (listen_udp_and_write (PF := IntegralFloat) no_files
                        three_datagrams))) by (vm_compute; reflexivity).
  split; [exact H|].
  apply (@X11_running_listener_has_flushed IntegralFloat no_files
           three_datagrams _ H).
Defined.


(** The sink of a directory that already has one keeps its line. *)
Example appended_after_history :
  stored (f (snd (listen_udp_and_write (PF := IntegralFloat) with_history
                    with_garbled)))
  = lit "0" ++ [10]
    ++ quoted "{'temp': 42.0, 'tags': ['a\u00e9', null, true, -7]}" ++ [10].
Proof. vm_compute. reflexivity. Qed.
